(** * FSBI: fractal semantic Bloom index (Server/fsbi.py, Server/app.py)

    A shallow embedding of the indexing and query engine and the proofs of
    its specified properties.

    Modelling conventions.
    - A Python [str] is a [string] whose characters are the code points
      U+0000 .. U+00FF; [str.lower], [str.strip], [str.split] and
      [str.isspace] are written out for that range.
    - A Python [int] is a [Z]; a Python [float] is an exact rational [Q]
      (rounding is not modelled), and float division is the partial
      operation [truediv], which fails on a zero divisor the way Python
      raises [ZeroDivisionError].
    - A Python [dict] whose iteration order matters ([levels], [docs],
      [trees]) is an association list kept in insertion order; the
      [children] of a node and the [thresholds] are finite maps.
    - The width [m] of a bit set is a [positive]: the server builds its
      index with 2048, and with [m = 0] every [i % self.m] raises.
    - Nodes are values, since [index_document] builds a new tree at each
      call; [noisy_bits], which is about the object that is written, is
      modelled on a store of bitarray objects.
    - [hashlib.sha256], the numpy arithmetic of [SemanticProjector] and
      [random.random] are parameters of the development ([Externals]). *)

From Stdlib Require Import ZArith QArith Lqa Lia Ascii String.
From stdpp Require Import base option list gmap strings pretty sorting.

Set Warnings "-register-all".
#[local] Open Scope Z_scope.

(** ** Python strings *)

Module PyStr.

Definition chars (s : string) : list ascii := String.list_ascii_of_string s.
Definition str (l : list ascii) : string := String.string_of_list_ascii l.

(** [str.isspace] on one code point below U+0100. *)
Definition isspace (c : ascii) : bool :=
  let n := N_of_ascii c in
  ((9 <=? n) && (n <=? 13) || (28 <=? n) && (n <=? 32)
   || (n =? 133) || (n =? 160))%N.

(** [str.lower] on one code point below U+0100. *)
Definition lower_char (c : ascii) : ascii :=
  let n := N_of_ascii c in
  if ((65 <=? n) && (n <=? 90)
      || (192 <=? n) && (n <=? 222) && negb (n =? 215))%N
  then ascii_of_N (n + 32) else c.

Definition lower (s : string) : string := str (map lower_char (chars s)).

Fixpoint lstrip_chars (l : list ascii) : list ascii :=
  match l with
  | c :: l' => if isspace c then lstrip_chars l' else l
  | [] => []
  end.

Definition rstrip_chars (l : list ascii) : list ascii :=
  reverse (lstrip_chars (reverse l)).

(** [s.strip()] *)
Definition strip (s : string) : string :=
  str (rstrip_chars (lstrip_chars (chars s))).

(** [s.split()]: the maximal runs of non-whitespace characters.
    [cur] is the run being read, in reading order. *)
Fixpoint split_go (cur : list ascii) (l : list ascii) : list string :=
  match l with
  | [] => match cur with [] => [] | _ => [str cur] end
  | c :: l' =>
      if isspace c
      then match cur with
           | [] => split_go [] l'
           | _ => str cur :: split_go [] l'
           end
      else split_go (cur ++ [c]) l'
  end.

Definition split (s : string) : list string := split_go [] (chars s).

(** [sep.join(parts)] *)
Fixpoint join (sep : string) (parts : list string) : string :=
  match parts with
  | [] => ""
  | [p] => p
  | p :: ps => p +:+ sep +:+ join sep ps
  end.

(** [len(s)] *)
Definition len (s : string) : Z := Z.of_nat (String.length s).

(** [s[i:j]] for [0 <= i]; the slice is cut at the end of [s]. *)
Definition slice (s : string) (i j : Z) : string :=
  String.substring (Z.to_nat i) (Z.to_nat (j - i)) s.

(** [bool(s)]: a string is true when it is not empty. *)
Definition truthy (s : string) : bool :=
  match s with "" => false | _ => true end.

End PyStr.

(** ** Python ranges, list slices and insertion-ordered dictionaries *)

Module Py.

(** [range(a, b)] *)
Definition range (a b : Z) : list Z :=
  map (fun i => a + Z.of_nat i) (seq 0 (Z.to_nat (b - a))).

(** [l[i:j]] for [0 <= i] *)
Definition slice {A} (l : list A) (i j : Z) : list A :=
  take (Z.to_nat (j - i)) (drop (Z.to_nat i) l).

(** [l[:k]]: a negative [k] counts from the end. *)
Definition slice_to {A} (l : list A) (k : Z) : list A :=
  if 0 <=? k then take (Z.to_nat k) l
  else take (Z.to_nat (Z.of_nat (length l) + k)) l.

Section Dict.
Context {K V : Type} `{EqDecision K}.

  (** [d.get(k)] *)
Fixpoint get (k : K) (d : list (K * V)) : option V :=
    match d with
    | [] => None
    | (k', v) :: d' => if decide (k' = k) then Some v else get k d'
    end.

  (** [d[k] = v]: an existing key keeps its place, a new key goes last. *)
Fixpoint set (k : K) (v : V) (d : list (K * V)) : list (K * V) :=
    match d with
    | [] => [(k, v)]
    | (k', v') :: d' =>
        if decide (k' = k) then (k, v) :: d' else (k', v') :: set k v d'
    end.

  (** [d.setdefault(k, v)], as a statement *)
Definition setdefault (k : K) (v : V) (d : list (K * V)) : list (K * V) :=
    match get k d with Some _ => d | None => set k v d end.

  (** [d[k] = f(d[k])] for a key that is present *)
Fixpoint update (k : K) (f : V -> V) (d : list (K * V)) : list (K * V) :=
    match d with
    | [] => []
    | (k', v) :: d' =>
        if decide (k' = k) then (k', f v) :: d' else (k', v) :: update k f d'
    end.

Definition keys (d : list (K * V)) : list K := map fst d.
End Dict.

End Py.

(** ** FractalDecomposer: [FSBIIndex.fractal_decompose] *)

Definition levels_t := list (Z * list string).

(** [levels[k].append(x)] *)
Definition levels_append (k : Z) (x : string) (levels : levels_t) : levels_t :=
  Py.update k (fun l => l ++ [x]) levels.

(** [levels.setdefault(k, []).extend(xs)] *)
Definition levels_extend (k : Z) (xs : list string) (levels : levels_t) : levels_t :=
  Py.update k (fun l => l ++ xs) (Py.setdefault k [] levels).

Definition fractal_decompose (text : string) (max_phrase_len : Z) : levels_t :=
  let text := PyStr.lower (PyStr.strip text) in
  let tokens := filter (fun t => PyStr.truthy t = true) (PyStr.split text) in
  let levels : levels_t := [] in
  (* Level 1: characters of the full text *)
  let levels := Py.setdefault 1 [] levels in
  let levels :=
    foldl (fun levels ch =>
             let ch := String ch "" in
             if PyStr.truthy (PyStr.strip ch)
             then levels_append 1 ch levels else levels)
          levels (PyStr.chars text) in
  (* Level 2: bigrams per token *)
  let levels := Py.setdefault 2 [] levels in
  let levels :=
    foldl (fun levels t =>
             foldl (fun levels i => levels_append 2 (PyStr.slice t i (i + 2)) levels)
                   levels (Py.range 0 (PyStr.len t - 1)))
          levels tokens in
  (* Level 3: tokens *)
  let levels := levels_extend 3 tokens levels in
  (* Level >= 4: phrases *)
  foldl (fun levels L =>
           let lvl := 3 + L - 1 in
           let levels := Py.setdefault lvl [] levels in
           foldl (fun levels i =>
                    levels_append lvl (PyStr.join " " (Py.slice tokens i (i + L))) levels)
                 levels (Py.range 0 (Z.of_nat (length tokens) - L + 1)))
        levels (Py.range 2 (max_phrase_len + 1)).

(** *** The levels, one by one

    What each level of a decomposition holds, read off the text: the
    statements about [fractal_decompose] compare it with these. *)

Definition normalize (text : string) : string :=
  PyStr.lower (PyStr.strip text).

Definition tokens_of (text : string) : list string :=
  filter (fun t => PyStr.truthy t = true) (PyStr.split (normalize text)).

(** the non-whitespace characters, left to right *)
Definition level_chars (text : string) : list string :=
  map (fun c => String c "")
      (filter (fun c => PyStr.isspace c = false) (PyStr.chars (normalize text))).

(** the 2-character substrings of one token, left to right *)
Definition bigrams (t : string) : list string :=
  map (fun i => PyStr.slice t i (i + 2)) (Py.range 0 (PyStr.len t - 1)).

(** the windows of [L] consecutive tokens, left to right *)
Definition windows (L : Z) (tokens : list string) : list string :=
  map (fun i => PyStr.join " " (Py.slice tokens i (i + L)))
      (Py.range 0 (Z.of_nat (length tokens) - L + 1)).

(** The [(level, subsequence)] pairs of a decomposition, in the order the
    loops of [index_document] and [query] visit them. *)
Definition pairs (d : levels_t) : list (Z * string) :=
  '(lvl, subseqs) ← d; s ← subseqs; [(lvl, s)].

(** ** What the development takes from outside the modelled code *)

Class Externals := {
  (** the values a metadata mapping can hold ([Dict[str, Any]]) *)
  Any : Type;
  (** [murmur_hash32(s, seed)]: the first 32 bits of
      [sha256(str(seed) + s)], read as an integer *)
  murmur_hash32 : string -> Z -> Z;
  (** the text that [round(score, 6)] formats to in
      [SemanticProjector.semantic_hashes], for a token and a direction [j];
      the score is numpy floating-point arithmetic over the token's n-grams *)
  rounded_score : string -> Z -> string;
  (** the successive values returned by [random.random()] *)
  random : nat -> Q
}.

(** ** Float division *)

Definition Qltb (a b : Q) : bool := negb (Qle_bool b a).

(** [a / b] on floats: [ZeroDivisionError] is [None]. *)
Definition truediv (a b : Q) : option Q :=
  if Qeq_bool b 0 then None else Some (a / b)%Q.

(** A loop whose body can raise. *)
Fixpoint foldlM {A B} (f : B -> A -> option B) (b : B) (l : list A) : option B :=
  match l with
  | [] => Some b
  | x :: l' => b' ← f b x; foldlM f b' l'
  end.

(** ** SemanticProjector *)

Module SemanticProjector.
Section WithExternals.
Context `{Externals}.

Definition semantic_hashes (token : string) (k : Z) (m : Z) : list Z :=
  map (fun j =>
         let combined :=
           token +:+ "|" +:+ pretty j +:+ "|" +:+ rounded_score token j in
         murmur_hash32 combined j mod m)
      (Py.range 0 k).
End WithExternals.
End SemanticProjector.

(** ** BloomNode *)

Module BloomNode.

(** [m] is positive: [bitarray(m)] needs [m >= 0], and with [m = 0] every
    [i % self.m] raises; the server builds its index with 2048. *)
Inductive t := Build {
  m : positive;
  bits : list bool;
  level : Z;
  name : string;
  children : gmap string t
}.

(** [BloomNode(m_bits, level, name)] *)
Definition init (m_bits : positive) (level : Z) (name : string) : t :=
  Build m_bits (replicate (Pos.to_nat m_bits) false) level name ∅.

(** [b[i]] for [0 <= i]; the bit sets of this program are only read
    below their length *)
Definition getitem (b : list bool) (i : Z) : bool :=
  match b !! Z.to_nat i with Some x => x | None => false end.

(** [b[i] = v] for [0 <= i] *)
Definition setitem (b : list bool) (i : Z) (v : bool) : list bool :=
  <[Z.to_nat i := v]> b.

Definition with_bits (self : t) (b : list bool) : t :=
  Build (m self) b (level self) (name self) (children self).

Definition with_children (self : t) (c : gmap string t) : t :=
  Build (m self) (bits self) (level self) (name self) c.

Definition insert_indexes (self : t) (idxs : list Z) : t :=
  with_bits self
    (foldl (fun b i => setitem b (i mod Z.pos (m self)) true) (bits self) idxs).

Definition hits (self : t) (idxs : list Z) : Z :=
  Z.of_nat (length (filter (fun i => getitem (bits self) (i mod Z.pos (m self)) = true) idxs)).

Definition match_score (self : t) (idxs : list Z) : option Q :=
  let hits := hits self idxs in
  if 0 <? Z.of_nat (length idxs)
  then truediv (inject_Z hits) (inject_Z (Z.of_nat (length idxs)))
  else Some 0%Q.

(** *** [noisy_bits], on a store of bitarray objects

    [noisy_bits] is about which object is written, so here a node is
    given by the address of its [bits] object in a store; the state also
    holds how many values [random.random()] has returned. *)
Record state := {
  store : list (list bool);
  drawn : nat
}.

(** [b.copy()]: a new object with the same contents *)
Definition copy (b : nat) (st : state) : option (nat * state) :=
  c ← store st !! b;
  Some (length (store st), {| store := store st ++ [c]; drawn := drawn st |}).

(** [random.random()] *)
Definition random_random `{Externals} (st : state) : Q * state :=
  (random (drawn st), {| store := store st; drawn := S (drawn st) |}).

(** [b[i] = not b[i]] *)
Definition flip (b : nat) (i : nat) (st : state) : state :=
  {| store := alter (alter negb i) b (store st); drawn := drawn st |}.

Definition noisy_bits `{Externals} (self_bits : nat) (self_m : positive)
    (flip_prob : Q) (st : state) : option (nat * state) :=
  '(noisy, st) ← copy self_bits st;
  if Qle_bool flip_prob 0 then Some (noisy, st)
  else
    Some (noisy,
          foldl (fun st i =>
                   let '(r, st) := random_random st in
                   if Qltb r flip_prob then flip noisy i st else st)
                st (seq 0 (Pos.to_nat self_m))).

End BloomNode.

(** ** FSBIIndex *)

Module FSBIIndex.
Section WithExternals.
Context `{Externals}.

Record DocumentEntry := {
  text : string;
  meta : gmap string Any
}.

Record t := {
  m : positive;
  k_lex : Z;
  k_sem : Z;
  docs : list (string * DocumentEntry);
  trees : list (string * BloomNode.t)
}.

(** [FSBIIndex(m_bits, k_lex, k_sem)] *)
Definition init (m_bits : positive) (k_lex k_sem : Z) : t :=
  {| m := m_bits; k_lex := k_lex; k_sem := k_sem; docs := []; trees := [] |}.

Definition _lex_hashes (self : t) (s : string) (k : Z) : list Z :=
  map (fun j => murmur_hash32 s j mod Z.pos (m self)) (Py.range 0 k).

Definition _sem_hashes (self : t) (s : string) (k : Z) : list Z :=
  SemanticProjector.semantic_hashes s k (Z.pos (m self)).

(** [f"l{lvl}:{subseq}"] *)
Definition child_name (lvl : Z) (subseq : string) : string :=
  "l" +:+ pretty lvl +:+ ":" +:+ subseq.

(** The body of the two loops of [index_document], for one subsequence. *)
Definition index_subseq (self : t) (lvl : Z) (root : BloomNode.t)
    (subseq : string) : BloomNode.t :=
  let lex_idxs := _lex_hashes self subseq (k_lex self) in
  let sem_idxs := _sem_hashes self subseq (k_sem self) in
  let root := BloomNode.insert_indexes root (lex_idxs ++ sem_idxs) in
  let child_name := child_name lvl subseq in
  let child :=
    match BloomNode.children root !! child_name with
    | Some c => c
    | None => BloomNode.init (m self) lvl child_name
    end in
  BloomNode.with_children root
    (<[child_name := BloomNode.insert_indexes child (lex_idxs ++ sem_idxs)]>
       (BloomNode.children root)).

(** The root node that [index_document] builds. *)
Definition build_root (self : t) (doc_id text : string) : BloomNode.t :=
  let root := BloomNode.init (m self) 0 (doc_id +:+ "_root") in
  let decomposition := fractal_decompose text 3 in
  foldl (fun root '(lvl, subseqs) => foldl (index_subseq self lvl) root subseqs)
        root decomposition.

Definition index_document (self : t) (doc_id text : string)
    (metadata : option (gmap string Any)) : t :=
  let root := build_root self doc_id text in
  {| m := m self; k_lex := k_lex self; k_sem := k_sem self;
     docs := Py.set doc_id {| text := text; meta := default ∅ metadata |}
                    (docs self);
     trees := Py.set doc_id root (trees self) |}.

(** The indices of one subsequence, as [query] computes them. *)
Definition ids (self : t) (s : string) : list Z :=
  _lex_hashes self s (k_lex self) ++ _sem_hashes self s (k_sem self).

(** The root match of [query]: [(root_hits, root_total)]. *)
Definition root_match (self : t) (root : BloomNode.t) (q_decomp : levels_t)
    : Z * Z :=
  foldl (fun acc '(lvl, subseqs) =>
           foldl (fun '(root_hits, root_total) s =>
                    let ids := ids self s in
                    (root_hits
                     + Z.of_nat (length (filter
                         (fun i => BloomNode.getitem (BloomNode.bits root)
                                     (i mod Z.pos (m self)) = true) ids)),
                     root_total + Z.of_nat (length ids)))
                 acc subseqs)
        (0, 0) q_decomp.

(** The descent of [query]: [(score, total_w)]. *)
Definition descend (self : t) (root : BloomNode.t) (q_decomp : levels_t)
    : option (Q * Q) :=
  foldlM (fun acc '(lvl, subseqs) =>
            foldlM (fun '(score, total_w) s =>
                      let child_name := child_name lvl s in
                      let idxs := ids self s in
                      m ← match BloomNode.children root !! child_name with
                          | Some c => BloomNode.match_score c idxs
                          | None => BloomNode.match_score root idxs
                          end;
                      w ← truediv 1 (inject_Z (1 + lvl));
                      Some (score + w * m, total_w + w)%Q)
                   acc subseqs)
         (0%Q, 0%Q) q_decomp.

(** [thresholds.get(0, 0.01)] *)
Definition threshold0 (thresholds : gmap Z Q) : Q :=
  default (1 # 100)%Q (thresholds !! 0).

(** The body of the loop over [self.trees.items()]. *)
Definition query_doc (self : t) (thresholds : gmap Z Q) (q_decomp : levels_t)
    (candidates : list (string * Q)) (item : string * BloomNode.t)
    : option (list (string * Q)) :=
  let '(doc_id, root) := item in
  let '(root_hits, root_total) := root_match self root q_decomp in
  root_score ← (if 0 <? root_total
                then truediv (inject_Z root_hits) (inject_Z root_total)
                else Some 0%Q);
  if Qltb root_score (threshold0 thresholds)
  then Some candidates (* prune *)
  else
    '(score, total_w) ← descend self root q_decomp;
    final_score ← (if Qltb 0 total_w then truediv score total_w
                   else Some 0%Q);
    Some (candidates ++ [(doc_id, final_score)]).

(** [candidates] when the loop over the trees is over. *)
Definition query_candidates (self : t) (query_text : string)
    (thresholds : option (gmap Z Q)) : option (list (string * Q)) :=
  let thresholds := default ∅ thresholds in
  let q_decomp := fractal_decompose query_text 3 in
  foldlM (query_doc self thresholds q_decomp) [] (trees self).

(** [candidates.sort(key=lambda x: x[1], reverse=True)]: the stable
    sort by decreasing score, written as an insertion sort. *)
Fixpoint sort_insert (x : string * Q) (l : list (string * Q)) : list (string * Q) :=
  match l with
  | [] => [x]
  | y :: l' => if Qltb (snd x) (snd y) then y :: sort_insert x l' else x :: l
  end.

Definition sort_desc (l : list (string * Q)) : list (string * Q) :=
  foldr sort_insert [] l.

Definition query (self : t) (query_text : string) (top_k : Z)
    (thresholds : option (gmap Z Q)) : option (list (string * Q)) :=
  candidates ← query_candidates self query_text thresholds;
  Some (Py.slice_to (sort_desc candidates) top_k).

(** [self.docs.get(doc_id, {})] is [get_doc]; [None] stands for [{}]. *)
Definition get_doc (self : t) (doc_id : string) : option DocumentEntry :=
  Py.get doc_id (docs self).

(** Modelled from the spec: [document_count() -> integer], the number of
    documents stored; fsbi.py defines no such method, and the spec gives
    it as the size of the doc_id -> DocumentEntry map. *)
Definition document_count (self : t) : Z :=
  Z.of_nat (length (Py.keys (docs self))).

End WithExternals.
End FSBIIndex.

(** ** The server's health report (app.py) *)

(** The ["docs"] field of the [health] response: [len(INDEX.docs)]. *)
Definition health `{Externals} (INDEX : FSBIIndex.t) : string * Z :=
  ("ok", Z.of_nat (length (FSBIIndex.docs INDEX))).

(** ** The quantities the statements are about *)

(** [b.count()]: the number of set bits *)
Definition popcount (b : list bool) : nat :=
  length (filter (fun x => x = true) b).

(** The value of [match_score]: the fraction of [idxs] whose bit is set,
    and 0 for no index. *)
Definition match_value (node : BloomNode.t) (idxs : list Z) : Q :=
  if Z.of_nat (length idxs) =? 0 then 0%Q
  else (inject_Z (BloomNode.hits node idxs) / inject_Z (Z.of_nat (length idxs)))%Q.

(** The bits after the loop of [insert_indexes] over [idxs]. *)
Definition insert_bits (m : positive) (b : list bool) (idxs : list Z) : list bool :=
  foldl (fun b i => BloomNode.setitem b (i mod Z.pos m) true) b idxs.

Definition Qsum (l : list Q) : Q := foldr Qplus 0%Q l.

Section Scores.
Context `{Externals}.

(** [w = 1 / (1 + level)] *)
Definition weight (lvl : Z) : Q := (1 / inject_Z (1 + lvl))%Q.

(** The match of one [(level, subsequence)] pair against a tree: the child
    keyed by the pair when there is one, the root otherwise. *)
Definition pair_match (self : FSBIIndex.t) (root : BloomNode.t) (p : Z * string) : Q :=
  match BloomNode.children root !! FSBIIndex.child_name (fst p) (snd p) with
  | Some c => match_value c (FSBIIndex.ids self (snd p))
  | None => match_value root (FSBIIndex.ids self (snd p))
  end.

Definition weight_sum (d : levels_t) : Q :=
  Qsum (map (fun p => weight (fst p)) (pairs d)).

Definition weighted_match_sum (self : FSBIIndex.t) (root : BloomNode.t)
    (d : levels_t) : Q :=
  Qsum (map (fun p => weight (fst p) * pair_match self root p)%Q (pairs d)).

(** [final_score = sum (w * match) / sum w], or 0 if [sum w = 0] *)
Definition refinement_score (self : FSBIIndex.t) (root : BloomNode.t)
    (d : levels_t) : Q :=
  if Qeq_bool (weight_sum d) 0 then 0%Q
  else (weighted_match_sum self root d / weight_sum d)%Q.

(** Every index of every subsequence of every level, pooled; an index
    produced several times is pooled that many times. *)
Definition pooled (self : FSBIIndex.t) (d : levels_t) : list Z :=
  p ← pairs d; FSBIIndex.ids self (snd p).

(** How many of the indices [idxs] have their bit set in [b]. *)
Definition set_count (self : FSBIIndex.t) (b : list bool) (idxs : list Z) : Z :=
  Z.of_nat (length (filter
    (fun i => BloomNode.getitem b (i mod Z.pos (FSBIIndex.m self)) = true) idxs)).

(** [root_score]: the pooled indices set in the root, over the number
    pooled; 0 when nothing is pooled. *)
Definition root_score (self : FSBIIndex.t) (root : BloomNode.t) (d : levels_t) : Q :=
  let total := Z.of_nat (length (pooled self d)) in
  if total =? 0 then 0%Q
  else (inject_Z (set_count self (BloomNode.bits root) (pooled self d))
        / inject_Z total)%Q.

(** A candidate is pruned when its [root_score] is below [thresholds[0]]. *)
Definition pruned (self : FSBIIndex.t) (thresholds : option (gmap Z Q))
    (root : BloomNode.t) (d : levels_t) : bool :=
  Qltb (root_score self root d) (FSBIIndex.threshold0 (default ∅ thresholds)).

(** No level of the decomposition is negative (so that [1 + level] is
    not 0). *)
Definition levels_nonneg (d : levels_t) : Prop := Forall (fun kv => 0 ≤ fst kv) d.

(** The candidates that survive pruning, in the order of [self.trees],
    each with its refinement score. *)
Definition survivors (self : FSBIIndex.t) (thresholds : option (gmap Z Q))
    (d : levels_t) : list (string * Q) :=
  omap (fun kv => if pruned self thresholds (snd kv) d then None
                  else Some (fst kv, refinement_score self (snd kv) d))
       (FSBIIndex.trees self).

(** Two results name the same document with the same score. *)
Definition same_result (c e : string * Q) : Prop :=
  fst c = fst e ∧ (snd c == snd e)%Q.

(** A text of whitespace only (the empty text is one). *)
Definition blank (text : string) : Prop :=
  Forall (fun c => PyStr.isspace c = true) (PyStr.chars text).




(** A tree of an index of width [m]: every bit set has length [m], and
    the bits of a child are bits of the root. *)
Definition tree_wf (m : positive) (root : BloomNode.t) : Prop :=
  BloomNode.m root = m
  ∧ length (BloomNode.bits root) = Pos.to_nat m
  ∧ ∀ name c, BloomNode.children root !! name = Some c →
      BloomNode.m c = m
      ∧ length (BloomNode.bits c) = Pos.to_nat m
      ∧ ∀ k, BloomNode.bits c !! k = Some true →
             BloomNode.bits root !! k = Some true.

Definition index_wf (self : FSBIIndex.t) : Prop :=
  Forall (fun kv => tree_wf (FSBIIndex.m self) (snd kv)) (FSBIIndex.trees self)
  ∧ NoDup (Py.keys (FSBIIndex.trees self))
  ∧ Py.keys (FSBIIndex.docs self) = Py.keys (FSBIIndex.trees self).

(** The index after a sequence of [index_document] calls on a new index. *)
Definition build (m_bits : positive) (k_lex k_sem : Z)
    (calls : list (string * string * option (gmap string Any))) : FSBIIndex.t :=
  foldl (fun self '(doc_id, text, metadata) =>
           FSBIIndex.index_document self doc_id text metadata)
        (FSBIIndex.init m_bits k_lex k_sem) calls.

End Scores.

(** ** A small hash family to run the model on *)

Module Toy.
Fixpoint code_sum (l : list ascii) (acc : Z) : Z :=
  match l with
  | [] => acc
  | c :: l' => code_sum l' (acc * 31 + Z.of_N (N_of_ascii c))
  end.

#[export] Instance externals : Externals := {|
  Any := string;
  murmur_hash32 := fun s seed => code_sum (PyStr.chars s) (seed + 7) mod 2 ^ 32;
  rounded_score := fun token j => "0.0";
  random := fun n => (Z.of_nat (n mod 10) # 10)%Q
|}.

(** Three calls of [index_document]; the third re-indexes ["d1"]. *)
Definition calls : list (string * string * option (gmap string Any)) :=
[("d1", "hello world", None); ("d2", "alpha beta gamma", None);
 ("d1", "hello there", None)].

Definition index : FSBIIndex.t := build 64 2 2 calls.

(** The tree of ["d1"] after the three calls. *)
Definition root : BloomNode.t :=
FSBIIndex.build_root (FSBIIndex.init 64 2 2) "d1" "hello there".

(** Results with their scores in lowest terms. *)
Definition reduced (r : option (list (string * Q))) : option (list (string * Q)) :=
option_map (map (fun r : string * Q => (fst r, Qred (snd r)))) r.
End Toy.

(** ** Snapshots and the query route *)

Module Snapshot.
Section WithExternals.
Context `{Externals}.

(** [b.to01()] *)
Definition to01 (b : list bool) : string :=
  PyStr.str (map (fun x : bool => if x then "1"%char else "0"%char) b).

(** One [out_doc] of [export_index_snapshot]. The children are compared as
    a mapping; their order in the dictionary is not kept. *)
Record out_doc := {
  root_bits : string;
  children : gmap string string;
  meta : gmap string Any
}.

(** [FSBIIndex.export_index_snapshot]; [self.docs[doc_id]] raises
    [KeyError], here [None], for an id without an entry. *)
Definition export_index_snapshot (self : FSBIIndex.t)
    : option (list (string * out_doc)) :=
  foldlM (fun out '(doc_id, root) =>
            entry ← Py.get doc_id (FSBIIndex.docs self);
            let out_doc :=
              {| root_bits := to01 (BloomNode.bits root);
                 children := (fun v => to01 (BloomNode.bits v))
                             <$> BloomNode.children root;
                 meta := FSBIIndex.meta entry |} in
            Some (Py.set doc_id out_doc out))
         [] (FSBIIndex.trees self).

End WithExternals.
End Snapshot.

Module App.
Section WithExternals.
Context `{Externals}.

(** The [/query] route on a payload whose ["q"] is a string and whose
    ["top_k"] is an integer, each possibly absent: the results of
    [INDEX.query], each with the first 200 characters of the stored text. *)
Definition query (INDEX : FSBIIndex.t) (payload_q : option string)
    (payload_top_k : option Z) : option (list (string * Q * string)) :=
  let q := default "" payload_q in
  let top_k := default 10 payload_top_k in
  results ← FSBIIndex.query INDEX q top_k None;
  Some (map (fun '(doc_id, score) =>
               let doc := FSBIIndex.get_doc INDEX doc_id in
               let snippet :=
                 PyStr.slice (match doc with
                              | Some e => FSBIIndex.text e
                              | None => ""
                              end) 0 200 in
               (doc_id, score, snippet))
            results).

End WithExternals.
End App.

(** ** More quantities the statements are about *)

(** The text and metadata of the last [index_document] call for [doc_id]. *)
Definition last_call {A} (doc_id : string) (calls : list (string * string * A))
    : option (string * A) :=
  foldl (fun acc c => if decide (fst (fst c) = doc_id)
                      then Some (snd (fst c), snd c) else acc)
        None calls.

(** The child of a [(level, subsequence)] pair: a new node that holds the
    indices of the subsequence and nothing else. *)
Definition child_of `{Externals} (self : FSBIIndex.t) (lvl : Z) (s : string)
    : BloomNode.t :=
  BloomNode.insert_indexes
    (BloomNode.init (FSBIIndex.m self) lvl (FSBIIndex.child_name lvl s))
    (FSBIIndex.ids self s).

(** A bit set all of whose bits are 0. *)
Definition zeros (m : positive) : list bool := replicate (Pos.to_nat m) false.

(** The bit that [noisy_bits] writes at a position: flipped when the draw
    for the position is below the probability. *)
Definition noisy_bit (flip_prob draw : Q) (b : bool) : bool :=
  if Qltb draw flip_prob then negb b else b.

(** * Proofs *)

(** ** Dictionaries *)

Section DictFacts.
Context {K V : Type} `{EqDecision K}.
Implicit Types (d : list (K * V)) (k : K) (v : V).

Lemma get_set_eq k v d : Py.get k (Py.set k v d) = Some v.
Proof.
  induction d as [|[k' v'] d IH]; simpl.
  - by rewrite decide_True.
  - destruct (decide (k' = k)) as [->|Hne]; simpl.
    + by rewrite decide_True.
    + by rewrite decide_False.
Qed.

Lemma get_set_ne k k' v d : k ≠ k' → Py.get k' (Py.set k v d) = Py.get k' d.
Proof.
  intros Hne. induction d as [|[k0 v0] d IH]; simpl.
  - by rewrite decide_False.
  - destruct (decide (k0 = k)) as [->|Hne0]; simpl.
    + by rewrite !decide_False.
    + destruct (decide (k0 = k')); [done|]. apply IH.
Qed.

Lemma set_set k v v' d : Py.set k v (Py.set k v' d) = Py.set k v d.
Proof.
  induction d as [|[k0 v0] d IH]; simpl.
  - by rewrite decide_True.
  - destruct (decide (k0 = k)) as [->|Hne]; simpl.
    + by rewrite decide_True.
    + rewrite decide_False by done. by rewrite IH.
Qed.

Lemma get_None_keys k d : Py.get k d = None ↔ k ∉ Py.keys d.
Proof.
  induction d as [|[k0 v0] d IH]; simpl.
  - split; [intros _; apply not_elem_of_nil|done].
  - rewrite not_elem_of_cons. destruct (decide (k0 = k)) as [->|Hne].
    + split; [done|]. by intros [? _].
    + rewrite IH. split; [intros ?; split; [congruence|done]|by intros [_ ?]].
Qed.

Lemma get_Some_elem k v d : Py.get k d = Some v → (k, v) ∈ d.
Proof.
  induction d as [|[k0 v0] d IH]; simpl; [done|].
  destruct (decide (k0 = k)) as [->|Hne].
  - intros [= ->]. apply list_elem_of_here.
  - intros Hg. apply list_elem_of_further. by apply IH.
Qed.

Lemma elem_get_NoDup k v d : NoDup (Py.keys d) → (k, v) ∈ d → Py.get k d = Some v.
Proof.
  induction d as [|[k0 v0] d IH]; simpl.
  - intros _ Hin. by apply elem_of_nil in Hin.
  - intros Hnd Hin. apply NoDup_cons in Hnd as [Hnotin Hnd].
    apply elem_of_cons in Hin as [Heq|Hin].
    + injection Heq as -> ->. by rewrite decide_True.
    + destruct (decide (k0 = k)) as [->|Hne]; [|by apply IH].
      exfalso. apply Hnotin. unfold Py.keys.
      by apply (list_elem_of_fmap_2 fst) in Hin.
Qed.

Lemma set_notin k v d : k ∉ Py.keys d → Py.set k v d = d ++ [(k, v)].
Proof.
  induction d as [|[k0 v0] d IH]; simpl; [done|].
  intros [Hne Hnotin]%not_elem_of_cons.
  rewrite decide_False by done. by rewrite IH.
Qed.

Lemma keys_set_in k v d : k ∈ Py.keys d → Py.keys (Py.set k v d) = Py.keys d.
Proof.
  induction d as [|[k0 v0] d IH]; simpl.
  - intros Hin. by apply elem_of_nil in Hin.
  - intros Hin. destruct (decide (k0 = k)) as [->|Hne]; simpl; [done|].
    f_equal. apply IH. apply elem_of_cons in Hin as [?|?]; [congruence|done].
Qed.

Lemma keys_set k v d :
  Py.keys (Py.set k v d) =
  if decide (k ∈ Py.keys d) then Py.keys d else Py.keys d ++ [k].
Proof.
  destruct (decide (k ∈ Py.keys d)) as [Hin|Hnotin].
  - by apply keys_set_in.
  - rewrite set_notin by done. unfold Py.keys. by rewrite map_app.
Qed.

Lemma NoDup_keys_set k v d : NoDup (Py.keys d) → NoDup (Py.keys (Py.set k v d)).
Proof.
  intros Hnd. rewrite keys_set. case_decide; [done|].
  apply NoDup_app. split_and!; [done| |apply NoDup_singleton].
  intros x Hx Hx'%list_elem_of_singleton. by subst.
Qed.

Lemma setdefault_notin k v d : k ∉ Py.keys d → Py.setdefault k v d = d ++ [(k, v)].
Proof.
  intros Hnotin. unfold Py.setdefault.
  rewrite (proj2 (get_None_keys k d) Hnotin). by apply set_notin.
Qed.

Lemma update_last k (f : V → V) v d :
  k ∉ Py.keys d → Py.update k f (d ++ [(k, v)]) = d ++ [(k, f v)].
Proof.
  induction d as [|[k0 v0] d IH]; simpl.
  - intros _. by rewrite decide_True.
  - intros [Hne Hnotin]%not_elem_of_cons.
    rewrite decide_False by done. by rewrite IH.
Qed.
End DictFacts.

(** ** The decomposition *)

Lemma foldl_pointwise {A B} (f g : B → A → B) (b : B) (l : list A) :
  (∀ b a, f b a = g b a) → foldl f b l = foldl g b l.
Proof.
  intros Hfg. revert b. induction l as [|a l IH]; intros b; simpl; [done|].
  by rewrite Hfg, IH.
Qed.

Lemma strip_one_char c :
  PyStr.truthy (PyStr.strip (String c "")) = negb (PyStr.isspace c).
Proof.
  unfold PyStr.strip, PyStr.rstrip_chars. simpl.
  destruct (PyStr.isspace c) eqn:Hc; simpl; [done|].
  cbn. by rewrite Hc.
Qed.

Lemma append_loop {A} (g : A → string) (xs : list A) k v (d : levels_t) :
  k ∉ Py.keys d →
  foldl (fun levels x => levels_append k (g x) levels) (d ++ [(k, v)]) xs
  = d ++ [(k, v ++ map g xs)].
Proof.
  intros Hk. revert v. induction xs as [|x xs IH]; intros v; simpl.
  - by rewrite app_nil_r.
  - unfold levels_append at 2. rewrite update_last by done.
    rewrite IH. by rewrite <- app_assoc.
Qed.

Lemma append_loop_if {A} (p : A → bool) (g : A → string) (xs : list A) k v
    (d : levels_t) :
  k ∉ Py.keys d →
  foldl (fun levels x => if p x then levels_append k (g x) levels else levels)
        (d ++ [(k, v)]) xs
  = d ++ [(k, v ++ map g (filter (fun x => p x = true) xs))].
Proof.
  intros Hk. revert v. induction xs as [|x xs IH]; intros v; simpl.
  - by rewrite app_nil_r.
  - rewrite filter_cons. destruct (p x) eqn:Hp.
    + unfold levels_append at 2. rewrite update_last by done.
      rewrite IH. rewrite decide_True by done. simpl. by rewrite <- app_assoc.
    + rewrite IH. by rewrite decide_False by done.
Qed.

Lemma append_loop_nested {A B} (g : A → B → string) (inner : A → list B)
    (xs : list A) k v (d : levels_t) :
  k ∉ Py.keys d →
  foldl (fun levels x =>
           foldl (fun levels i => levels_append k (g x i) levels) levels (inner x))
        (d ++ [(k, v)]) xs
  = d ++ [(k, v ++ (x ← xs; map (g x) (inner x)))].
Proof.
  intros Hk. revert v. induction xs as [|x xs IH]; intros v; simpl.
  - by rewrite app_nil_r.
  - rewrite (append_loop (g x)) by done. rewrite IH. by rewrite <- app_assoc.
Qed.

Lemma phrase_loop (tokens : list string) (Ls : list Z) (d : levels_t) :
  StronglySorted Z.lt Ls →
  Forall (fun L => Forall (fun k => k < 3 + L - 1) (Py.keys d)) Ls →
  foldl (fun levels L =>
           let lvl := 3 + L - 1 in
           let levels := Py.setdefault lvl [] levels in
           foldl (fun levels i =>
                    levels_append lvl (PyStr.join " " (Py.slice tokens i (i + L))) levels)
                 levels (Py.range 0 (Z.of_nat (length tokens) - L + 1)))
        d Ls
  = d ++ map (fun L => (3 + L - 1, windows L tokens)) Ls.
Proof.
  revert d. induction Ls as [|L Ls IH]; intros d Hsorted Hkeys; simpl.
  - by rewrite app_nil_r.
  - apply StronglySorted_inv in Hsorted as [Hsorted HL].
    apply Forall_cons in Hkeys as [HkL Hkeys].
    assert (3 + L - 1 ∉ Py.keys d) as Hnotin.
    { intros Hin. rewrite Forall_forall in HkL. apply HkL in Hin. lia. }
    rewrite setdefault_notin by done.
    rewrite (append_loop (fun i => PyStr.join " " (Py.slice tokens i (i + L)))) by done.
    simpl. rewrite IH; [by rewrite <- app_assoc|done|].
    rewrite Forall_forall in Hkeys, HL. apply Forall_forall. intros L' HL'.
    unfold Py.keys. rewrite map_app. apply Forall_app. split.
    + eapply Forall_impl; [apply (Hkeys L' HL')|]. done.
    + simpl. apply Forall_singleton. specialize (HL L' HL'). lia.
Qed.

Lemma range_sorted a b : StronglySorted Z.lt (Py.range a b).
Proof.
  unfold Py.range. generalize (Z.to_nat (b - a)) as n. intros n.
  revert a. induction n as [|n IH]; intros a; simpl; [constructor|].
  constructor.
  - rewrite <- seq_shift, map_map.
    erewrite map_ext; [apply (IH (a + 1))|]. intros i. simpl. lia.
  - apply Forall_forall. intros x Hx. apply list_elem_of_In in Hx.
    apply in_map_iff in Hx as (i & <- & Hi). apply in_seq in Hi. lia.
Qed.

Lemma elem_of_range a b x : x ∈ Py.range a b ↔ a ≤ x < b.
Proof.
  unfold Py.range. rewrite list_elem_of_In, in_map_iff. split.
  - intros (i & <- & Hi). apply in_seq in Hi. lia.
  - intros Hx. exists (Z.to_nat (x - a)). split; [lia|]. apply in_seq. lia.
Qed.

(** [fractal_decompose] returns the levels in the order 1, 2, 3, 4, ...,
    each holding what [level_chars], [bigrams], the tokens and [windows]
    give. *)
Lemma fractal_decompose_levels text max_phrase_len :
  fractal_decompose text max_phrase_len =
  (1, level_chars text)
  :: (2, t ← tokens_of text; bigrams t)
  :: (3, tokens_of text)
  :: map (fun L => (3 + L - 1, windows L (tokens_of text)))
         (Py.range 2 (max_phrase_len + 1)).
Proof.
  unfold fractal_decompose. fold (normalize text). fold (tokens_of text).
  rewrite (setdefault_notin 1 [] []) by apply not_elem_of_nil. simpl app.
  rewrite (foldl_pointwise _
    (fun levels ch => if negb (PyStr.isspace ch)
                      then levels_append 1 (String ch "") levels else levels)).
  2:{ intros levels ch. by rewrite strip_one_char. }
  rewrite (append_loop_if (fun ch => negb (PyStr.isspace ch))
             (fun ch => String ch "") _ 1 [] [])
    by apply not_elem_of_nil.
  simpl app.
  assert (filter (fun x => negb (PyStr.isspace x) = true) (PyStr.chars (normalize text))
          = filter (fun c => PyStr.isspace c = false) (PyStr.chars (normalize text)))
    as ->.
  { apply list_filter_iff. intros c. by destruct (PyStr.isspace c). }
  fold (level_chars text).
  rewrite (setdefault_notin 2 [] [(1, level_chars text)]).
  2:{ simpl. rewrite list_elem_of_singleton. lia. }
  rewrite (append_loop_nested (fun t i => PyStr.slice t i (i + 2))
             (fun t => Py.range 0 (PyStr.len t - 1))).
  2:{ simpl. rewrite list_elem_of_singleton. lia. }
  simpl app. unfold levels_extend.
  rewrite (setdefault_notin 3 []).
  2:{ simpl. rewrite !not_elem_of_cons. split_and!; [lia|lia|apply not_elem_of_nil]. }
  rewrite update_last.
  2:{ simpl. rewrite !not_elem_of_cons. split_and!; [lia|lia|apply not_elem_of_nil]. }
  rewrite phrase_loop; [done|apply range_sorted|].
  apply Forall_forall. intros L HL%elem_of_range. simpl.
  repeat (apply Forall_cons; split; [lia|]). constructor.
Qed.

Lemma get_phrase_level {A} (f : Z → A) (Ls : list Z) (l : Z) :
  l - 2 ∈ Ls →
  Py.get l (map (fun L => (3 + L - 1, f L)) Ls) = Some (f (l - 2)).
Proof.
  induction Ls as [|L Ls IH]; simpl.
  - intros Hin. by apply elem_of_nil in Hin.
  - intros Hin. destruct (decide (3 + L - 1 = l)) as [Heq|Hne].
    + do 2 f_equal. lia.
    + apply IH. apply elem_of_cons in Hin as [?|?]; [lia|done].
Qed.

(** C4. Decomposition follows the level scheme. On ["The Cat"] with
    [max_phrase_len = 3]: level 1 is the six non-space characters of
    ["the cat"] in order, level 2 is ["th"; "he"] then ["ca"; "at"] (no
    bigram across the two tokens), level 3 is ["the"; "cat"]. In general
    the result lists level 1 (the non-whitespace characters left to right),
    level 2 (the bigrams of each token, token after token), level 3 (the
    tokens) and one level [3 + L - 1] per phrase length [L] (the windows of
    [L] tokens left to right), duplicates kept; and every level from 1 to
    [3 + max_phrase_len - 1] is present, with an empty list when it has no
    subsequence. [fractal_decompose] is a function of its arguments, so two
    calls return the same mapping. *)
Theorem fractal_decompose_level_scheme :
  fractal_decompose "The Cat" 3 =
    [(1, ["t"; "h"; "e"; "c"; "a"; "t"]); (2, ["th"; "he"; "ca"; "at"]);
     (3, ["the"; "cat"]); (4, ["the cat"]); (5, [])]
  ∧ ∀ text max_phrase_len,
      fractal_decompose text max_phrase_len =
        (1, level_chars text)
        :: (2, t ← tokens_of text; bigrams t)
        :: (3, tokens_of text)
        :: map (fun L => (3 + L - 1, windows L (tokens_of text)))
               (Py.range 2 (max_phrase_len + 1))
      ∧ ∀ l, 1 ≤ l ≤ 3 + max_phrase_len - 1 →
             ∃ subseqs, Py.get l (fractal_decompose text max_phrase_len) = Some subseqs.
Proof.
  split; [vm_compute; reflexivity|].
  intros text mpl. split; [apply fractal_decompose_levels|].
  intros l Hl. rewrite fractal_decompose_levels.
  destruct (decide (l = 1)) as [->|H1]; [by eexists|].
  destruct (decide (l = 2)) as [->|H2]; [by eexists|].
  destruct (decide (l = 3)) as [->|H3]; [by eexists|].
  eexists. simpl. rewrite !decide_False by lia.
  apply get_phrase_level. apply elem_of_range. lia.
Qed.

(** ** Bit sets *)

Lemma setitem_length b i v : length (BloomNode.setitem b i v) = length b.
Proof. apply length_insert. Qed.

Lemma insert_true_mono (b : list bool) (n k : nat) :
  b !! k = Some true → <[n := true]> b !! k = Some true.
Proof.
  intros Hk. destruct (decide (n = k)) as [->|Hne].
  - apply list_lookup_insert_eq. by eapply lookup_lt_Some.
  - by rewrite list_lookup_insert_ne.
Qed.

Lemma popcount_insert_true (b : list bool) (n : nat) :
  (popcount b ≤ popcount (<[n := true]> b))%nat.
Proof.
  unfold popcount. revert n. induction b as [|x b IH]; intros n; [done|].
  destruct n as [|n].
  - change (<[0%nat := true]> (x :: b)) with (true :: b).
    rewrite (filter_cons_True _ true) by done.
    destruct x; [done|]. rewrite filter_cons_False by done. simpl. lia.
  - change (<[S n := true]> (x :: b)) with (x :: <[n := true]> b).
    specialize (IH n). destruct x.
    + rewrite !filter_cons_True by done. simpl. lia.
    + by rewrite !filter_cons_False by done.
Qed.

Lemma lookup_insert_true (b : list bool) (n k : nat) :
  <[n := true]> b !! k = Some true ↔
  b !! k = Some true ∨ (k = n ∧ (n < length b)%nat).
Proof.
  destruct (decide (n = k)) as [->|Hne].
  - destruct (decide (k < length b)%nat) as [Hlt|Hge].
    + rewrite list_lookup_insert_eq by done. split; [by right|done].
    + rewrite list_insert_ge by lia. split; [by left|].
      intros [?|[_ ?]]; [done|lia].
  - rewrite list_lookup_insert_ne by done. split; [by left|].
    intros [?|[? _]]; [done|congruence].
Qed.

Section InsertFacts.
Variable m : positive.
Implicit Types (b : list bool) (idxs : list Z).

Lemma insert_bits_length b idxs : length (insert_bits m b idxs) = length b.
Proof.
  revert b. induction idxs as [|i idxs IH]; intros b; simpl; [done|].
  unfold insert_bits in *. simpl. by rewrite IH, setitem_length.
Qed.

Lemma insert_bits_mono b idxs k :
  b !! k = Some true → insert_bits m b idxs !! k = Some true.
Proof.
  revert b. induction idxs as [|i idxs IH]; intros b Hk; [done|].
  apply IH. by apply insert_true_mono.
Qed.

Lemma insert_bits_popcount b idxs :
  (popcount b ≤ popcount (insert_bits m b idxs))%nat.
Proof.
  revert b. induction idxs as [|i idxs IH]; intros b; [done|].
  etrans; [|apply IH]. apply popcount_insert_true.
Qed.

Lemma insert_bits_lookup b idxs k :
  insert_bits m b idxs !! k = Some true ↔
  b !! k = Some true
  ∨ ((k < length b)%nat ∧ ∃ i, i ∈ idxs ∧ k = Z.to_nat (i mod Z.pos m)).
Proof.
  revert b. induction idxs as [|i idxs IH]; intros b.
  - simpl. split; [by left|]. intros [?|(_ & j & Hj & _)]; [done|].
    by apply elem_of_nil in Hj.
  - change (insert_bits m b (i :: idxs))
      with (insert_bits m (BloomNode.setitem b (i mod Z.pos m) true) idxs).
    rewrite IH. unfold BloomNode.setitem. rewrite lookup_insert_true, length_insert.
    split.
    + intros [[?|[-> ?]]|(? & j & Hj & ->)].
      * by left.
      * right. split; [done|]. exists i. split; [apply list_elem_of_here|done].
      * right. split; [done|]. exists j. split; [by apply list_elem_of_further|done].
    + intros [?|(? & j & Hj & ->)]; [by left; left|].
      apply elem_of_cons in Hj as [->|Hj]; [left; right; done|].
      right. split; [done|]. by exists j.
Qed.

Lemma insert_bits_subset b1 b2 idxs :
  length b1 = length b2 →
  (∀ k, b1 !! k = Some true → b2 !! k = Some true) →
  ∀ k, insert_bits m b1 idxs !! k = Some true → insert_bits m b2 idxs !! k = Some true.
Proof.
  intros Hlen Hsub k. rewrite !insert_bits_lookup, Hlen.
  intros [?|?]; [left; by apply Hsub|by right].
Qed.

End InsertFacts.

(** ** Loops over a decomposition *)

Lemma foldl_invariant {A B} (P : B → Prop) (f : B → A → B) (b : B) (l : list A) :
  P b → (∀ b a, a ∈ l → P b → P (f b a)) → P (foldl f b l).
Proof.
  revert b. induction l as [|a l IH]; intros b Hb Hstep; simpl; [done|].
  apply IH.
  - apply Hstep; [apply list_elem_of_here|done].
  - intros b' a' Ha'. apply Hstep. by apply list_elem_of_further.
Qed.

Lemma pairs_cons lvl subseqs (d : levels_t) :
  pairs ((lvl, subseqs) :: d) = map (pair lvl) subseqs ++ pairs d.
Proof.
  unfold pairs. rewrite bind_cons. f_equal.
Qed.

Lemma foldl_pairs {B} (f : Z → B → string → B) (b : B) (d : levels_t) :
  foldl (fun acc '(lvl, subseqs) => foldl (f lvl) acc subseqs) b d
  = foldl (fun acc p => f (fst p) acc (snd p)) b (pairs d).
Proof.
  revert b. induction d as [|[lvl subseqs] d IH]; intros b; [done|].
  rewrite pairs_cons, foldl_app, <- IH. simpl. f_equal.
  clear IH. revert b. induction subseqs as [|s subseqs IHs]; intros b; [done|].
  simpl. by rewrite IHs.
Qed.

Lemma foldlM_app {A B} (f : B → A → option B) (b : B) (l1 l2 : list A) :
  foldlM f b (l1 ++ l2) = (b' ← foldlM f b l1; foldlM f b' l2).
Proof.
  revert b. induction l1 as [|a l1 IH]; intros b; simpl; [done|].
  destruct (f b a) as [b'|]; simpl; [apply IH|done].
Qed.

Lemma foldlM_pointwise {A B} (f g : B → A → option B) (b : B) (l : list A) :
  (∀ b a, f b a = g b a) → foldlM f b l = foldlM g b l.
Proof.
  intros Hfg. revert b. induction l as [|a l IH]; intros b; simpl; [done|].
  rewrite Hfg. destruct (g b a); simpl; [apply IH|done].
Qed.

Lemma foldlM_pairs {B} (f : Z → B → string → option B) (b : B) (d : levels_t) :
  foldlM (fun acc '(lvl, subseqs) => foldlM (f lvl) acc subseqs) b d
  = foldlM (fun acc p => f (fst p) acc (snd p)) b (pairs d).
Proof.
  revert b. induction d as [|[lvl subseqs] d IH]; intros b; [done|].
  rewrite pairs_cons, foldlM_app. simpl.
  assert (foldlM (f lvl) b subseqs
          = foldlM (fun acc p => f (fst p) acc (snd p)) b (map (pair lvl) subseqs))
    as ->.
  { clear IH. revert b. induction subseqs as [|s subseqs IHs]; intros b; [done|].
    simpl. destruct (f lvl b s); simpl; [apply IHs|done]. }
  destruct (foldlM _ b _) as [b'|]; simpl; [apply IH|done].
Qed.

Lemma pairs_nil_iff (d : levels_t) :
  pairs d = [] ↔ Forall (fun kv => snd kv = []) d.
Proof.
  induction d as [|[lvl subseqs] d IH].
  - split; [constructor|done].
  - rewrite pairs_cons, Forall_cons. simpl. rewrite <- IH. split.
    + intros [Hs Hd]%app_eq_nil. split; [|done].
      by destruct subseqs.
    + intros [-> ->]. done.
Qed.

Lemma elem_of_pairs (d : levels_t) lvl s :
  (lvl, s) ∈ pairs d ↔ ∃ subseqs, (lvl, subseqs) ∈ d ∧ s ∈ subseqs.
Proof.
  induction d as [|[lvl' subseqs'] d IH].
  - split; [intros Hin; by apply elem_of_nil in Hin|].
    intros (? & Hin & _). by apply elem_of_nil in Hin.
  - rewrite pairs_cons, elem_of_app, IH, list_elem_of_fmap. split.
    + intros [(s' & [= -> ->] & Hs')|(subseqs & Hd & Hs)].
      * exists subseqs'. split; [apply list_elem_of_here|done].
      * exists subseqs. split; [by apply list_elem_of_further|done].
    + intros (subseqs & Hd & Hs). apply elem_of_cons in Hd as [[= -> ->]|Hd].
      * left. by exists s.
      * right. by exists subseqs.
Qed.

(** ** Indexing *)

Section Indexing.
Context `{Externals}.
Implicit Types (self : FSBIIndex.t) (root : BloomNode.t).

Lemma insert_indexes_bits root idxs :
  BloomNode.bits (BloomNode.insert_indexes root idxs)
  = insert_bits (BloomNode.m root) (BloomNode.bits root) idxs.
Proof. done. Qed.

Lemma index_subseq_bits self lvl root s :
  BloomNode.bits (FSBIIndex.index_subseq self lvl root s)
  = insert_bits (BloomNode.m root) (BloomNode.bits root) (FSBIIndex.ids self s).
Proof. done. Qed.

Lemma index_subseq_m self lvl root s :
  BloomNode.m (FSBIIndex.index_subseq self lvl root s) = BloomNode.m root.
Proof. done. Qed.

Lemma init_wf m lvl name : tree_wf m (BloomNode.init m lvl name).
Proof.
  split_and!; [done|apply length_replicate|]. intros name' c Hc.
  simpl in Hc. by rewrite lookup_empty in Hc.
Qed.

Lemma init_bits_false m lvl name k :
  BloomNode.bits (BloomNode.init m lvl name) !! k ≠ Some true.
Proof.
  simpl. intros Hk. apply lookup_replicate in Hk as [Hk _]. discriminate.
Qed.

Lemma index_subseq_wf self lvl root s :
  tree_wf (FSBIIndex.m self) root →
  tree_wf (FSBIIndex.m self) (FSBIIndex.index_subseq self lvl root s).
Proof.
  intros (Hm & Hlen & Hch). split_and!.
  - by rewrite index_subseq_m.
  - by rewrite index_subseq_bits, insert_bits_length.
  - intros name c. rewrite index_subseq_bits. unfold FSBIIndex.index_subseq.
    cbn [BloomNode.children BloomNode.with_children BloomNode.insert_indexes
         BloomNode.with_bits].
    fold (FSBIIndex.ids self s).
    destruct (decide (FSBIIndex.child_name lvl s = name)) as [<-|Hne].
    + rewrite lookup_insert_eq. intros [= <-].
      destruct (BloomNode.children root !! FSBIIndex.child_name lvl s)
        as [c0|] eqn:Hc0.
      * destruct (Hch _ _ Hc0) as (Hm0 & Hlen0 & Hsub0).
        split_and!; [done|by rewrite insert_indexes_bits, insert_bits_length|].
        rewrite insert_indexes_bits, Hm0, Hm.
        apply insert_bits_subset; [congruence|done].
      * split_and!; [done| |].
        { rewrite insert_indexes_bits, insert_bits_length. apply length_replicate. }
        rewrite insert_indexes_bits, Hm.
        apply insert_bits_subset.
        { rewrite Hlen. apply length_replicate. }
        intros k Hk. by apply init_bits_false in Hk.
    + rewrite lookup_insert_ne by done. intros Hc.
      destruct (Hch _ _ Hc) as (Hm0 & Hlen0 & Hsub0).
      split_and!; [done..|].
      intros k Hk. apply insert_bits_mono. by apply Hsub0.
Qed.

Lemma build_root_pairs self doc_id text :
  FSBIIndex.build_root self doc_id text
  = foldl (fun root p => FSBIIndex.index_subseq self (fst p) root (snd p))
          (BloomNode.init (FSBIIndex.m self) 0 (doc_id +:+ "_root"))
          (pairs (fractal_decompose text 3)).
Proof.
  unfold FSBIIndex.build_root.
  apply (foldl_pairs (FSBIIndex.index_subseq self)).
Qed.

Lemma build_root_wf self doc_id text :
  tree_wf (FSBIIndex.m self) (FSBIIndex.build_root self doc_id text).
Proof.
  rewrite build_root_pairs. apply foldl_invariant; [apply init_wf|].
  intros root p _. apply index_subseq_wf.
Qed.

Lemma insert_bits_app m b l1 l2 :
  insert_bits m b (l1 ++ l2) = insert_bits m (insert_bits m b l1) l2.
Proof. apply foldl_app. Qed.

(** The root of a document holds the pooled indices of its text, and
    nothing else. *)
Lemma build_root_bits self doc_id text :
  BloomNode.bits (FSBIIndex.build_root self doc_id text)
  = insert_bits (FSBIIndex.m self) (replicate (Pos.to_nat (FSBIIndex.m self)) false)
                (pooled self (fractal_decompose text 3)).
Proof.
  rewrite build_root_pairs. unfold pooled.
  generalize (pairs (fractal_decompose text 3)) as ps. intros ps.
  change (replicate (Pos.to_nat (FSBIIndex.m self)) false)
    with (BloomNode.bits (BloomNode.init (FSBIIndex.m self) 0 (doc_id +:+ "_root"))).
  assert (BloomNode.m (BloomNode.init (FSBIIndex.m self) 0 (doc_id +:+ "_root"))
          = FSBIIndex.m self) as Hm by done.
  revert Hm. generalize (BloomNode.init (FSBIIndex.m self) 0 (doc_id +:+ "_root")).
  induction ps as [|p ps IH]; intros root Hm; [done|].
  simpl. rewrite IH by done. rewrite insert_bits_app. by rewrite index_subseq_bits, Hm.
Qed.

Lemma Forall_set {V} (P : string * V → Prop) k v (d : list (string * V)) :
  P (k, v) → Forall P d → Forall P (Py.set k v d).
Proof.
  intros Hkv. induction 1 as [|[k0 v0] d H0 Hd IH]; simpl.
  - by apply Forall_singleton.
  - destruct (decide (k0 = k)); by constructor.
Qed.

Lemma index_document_wf self doc_id text metadata :
  index_wf self → index_wf (FSBIIndex.index_document self doc_id text metadata).
Proof.
  intros (Htrees & Hnd & Hkeys). split_and!; simpl.
  - apply Forall_set; [apply build_root_wf|done].
  - by apply NoDup_keys_set.
  - rewrite !keys_set, Hkeys. done.
Qed.

Lemma build_m m_bits k_lex k_sem calls :
  FSBIIndex.m (build m_bits k_lex k_sem calls) = m_bits
  ∧ FSBIIndex.k_lex (build m_bits k_lex k_sem calls) = k_lex
  ∧ FSBIIndex.k_sem (build m_bits k_lex k_sem calls) = k_sem.
Proof.
  unfold build. apply foldl_invariant; [done|].
  intros self [[doc_id text] metadata] _. done.
Qed.

Lemma build_wf m_bits k_lex k_sem calls : index_wf (build m_bits k_lex k_sem calls).
Proof.
  unfold build. apply foldl_invariant.
  - split_and!; [constructor|constructor|done].
  - intros self [[doc_id text] metadata] _. apply index_document_wf.
Qed.

End Indexing.

Section IndexingClaims.
Context `{Externals}.

(** C5. [index_document] is idempotent: a second call with the same
    [(doc_id, text, metadata)] leaves the index as the first call left it,
    and the tree stored for [doc_id] (root bit set and every child bit set)
    is the same after one call and after two. *)
Theorem index_document_idempotent (self : FSBIIndex.t) (doc_id text : string)
    (metadata : option (gmap string Any)) :
  let once := FSBIIndex.index_document self doc_id text metadata in
  let twice := FSBIIndex.index_document once doc_id text metadata in
  twice = once
  ∧ Py.get doc_id (FSBIIndex.trees twice) = Py.get doc_id (FSBIIndex.trees once)
  ∧ Py.get doc_id (FSBIIndex.trees once)
    = Some (FSBIIndex.build_root self doc_id text).
Proof.
  intros once twice.
  assert (twice = once) as Heq.
  { unfold twice, once, FSBIIndex.index_document. cbn [FSBIIndex.m FSBIIndex.k_lex
      FSBIIndex.k_sem FSBIIndex.docs FSBIIndex.trees].
    rewrite !set_set. reflexivity. }
  split_and!; [done|by rewrite Heq|]. apply get_set_eq.
Qed.

(** C6. Re-indexing a [doc_id] with another text replaces its tree and its
    entry: the stored tree is the one the new text alone builds (in a new
    index of the same configuration), the stored entry holds the new text
    and metadata, every bit set in the new root is the bit of an index of
    the new text, and the trees and entries of every other [doc_id], and
    the order of the documents, are unchanged. *)
Theorem reindex_replaces (self : FSBIIndex.t) (doc_id old_text new_text : string)
    (old_meta new_meta : option (gmap string Any)) :
  let before := FSBIIndex.index_document self doc_id old_text old_meta in
  let after := FSBIIndex.index_document before doc_id new_text new_meta in
  let new_root :=
    FSBIIndex.build_root
      (FSBIIndex.init (FSBIIndex.m self) (FSBIIndex.k_lex self) (FSBIIndex.k_sem self))
      doc_id new_text in
  Py.get doc_id (FSBIIndex.trees after) = Some new_root
  ∧ FSBIIndex.get_doc after doc_id
    = Some {| FSBIIndex.text := new_text; FSBIIndex.meta := default ∅ new_meta |}
  ∧ (∀ k, BloomNode.bits new_root !! k = Some true →
          ∃ i, i ∈ pooled self (fractal_decompose new_text 3)
               ∧ k = Z.to_nat (i mod Z.pos (FSBIIndex.m self)))
  ∧ (∀ other, other ≠ doc_id →
       Py.get other (FSBIIndex.trees after) = Py.get other (FSBIIndex.trees before)
       ∧ FSBIIndex.get_doc after other = FSBIIndex.get_doc before other)
  ∧ Py.keys (FSBIIndex.trees after) = Py.keys (FSBIIndex.trees before)
  ∧ Py.keys (FSBIIndex.docs after) = Py.keys (FSBIIndex.docs before).
Proof.
  intros before after new_root. split_and!.
  - unfold after, FSBIIndex.index_document. cbn [FSBIIndex.trees].
    rewrite get_set_eq. reflexivity.
  - unfold FSBIIndex.get_doc, after, FSBIIndex.index_document. cbn [FSBIIndex.docs].
    apply get_set_eq.
  - intros k. unfold new_root. rewrite build_root_bits.
    cbn [FSBIIndex.init FSBIIndex.m]. rewrite insert_bits_lookup.
    intros [Hk|(_ & i & Hi & ->)].
    + apply lookup_replicate in Hk as [Hk _]. discriminate.
    + exists i. split; [|done].
      unfold pooled, FSBIIndex.ids, FSBIIndex._lex_hashes, FSBIIndex._sem_hashes in *.
      done.
  - intros other Hne. unfold FSBIIndex.get_doc, after, FSBIIndex.index_document.
    cbn [FSBIIndex.docs FSBIIndex.trees]. by rewrite !get_set_ne.
  - unfold after, before, FSBIIndex.index_document. cbn [FSBIIndex.trees].
    apply keys_set_in. rewrite keys_set. case_decide; [done|].
    apply elem_of_app. right. apply list_elem_of_here.
  - unfold after, before, FSBIIndex.index_document. cbn [FSBIIndex.docs].
    apply keys_set_in. rewrite keys_set. case_decide; [done|].
    apply elem_of_app. right. apply list_elem_of_here.
Qed.

(** C10. Root-superset invariant: after any sequence of [index_document]
    calls, in every stored tree every bit set in a child bit set is set in
    the root bit set. *)
Theorem child_bits_in_root (m_bits : positive) (k_lex k_sem : Z)
    (calls : list (string * string * option (gmap string Any)))
    (doc_id : string) (root : BloomNode.t) (name : string) (child : BloomNode.t)
    (k : nat) :
  Py.get doc_id (FSBIIndex.trees (build m_bits k_lex k_sem calls)) = Some root →
  BloomNode.children root !! name = Some child →
  BloomNode.bits child !! k = Some true →
  BloomNode.bits root !! k = Some true.
Proof.
  intros Hroot Hchild Hk.
  destruct (build_wf m_bits k_lex k_sem calls) as (Htrees & _ & _).
  apply get_Some_elem in Hroot. rewrite Forall_forall in Htrees.
  destruct (Htrees _ Hroot) as (_ & _ & Hch).
  destruct (Hch _ _ Hchild) as (_ & _ & Hsub). by apply Hsub.
Qed.

Lemma elem_of_keys_set {V} k k' v (d : list (string * V)) :
  k' ∈ Py.keys (Py.set k v d) ↔ k' = k ∨ k' ∈ Py.keys d.
Proof.
  rewrite keys_set. case_decide as Hin.
  - split; [by right|]. intros [->|?]; done.
  - rewrite elem_of_app, list_elem_of_singleton. tauto.
Qed.

Lemma build_keys m_bits k_lex k_sem calls k :
  k ∈ Py.keys (FSBIIndex.docs (build m_bits k_lex k_sem calls))
  ↔ k ∈ map (fun c => fst (fst c)) calls.
Proof.
  unfold build.
  assert (∀ self, k ∈ Py.keys (FSBIIndex.docs
            (foldl (fun self '(doc_id, text, metadata) =>
                      FSBIIndex.index_document self doc_id text metadata) self calls))
          ↔ k ∈ Py.keys (FSBIIndex.docs self) ∨ k ∈ map (fun c => fst (fst c)) calls)
    as Hgen.
  { induction calls as [|[[d t] md] calls IH]; intros self; simpl.
    - rewrite elem_of_nil. tauto.
    - rewrite IH. cbn [FSBIIndex.index_document FSBIIndex.docs].
      rewrite elem_of_keys_set, elem_of_cons. tauto. }
  rewrite Hgen. simpl. rewrite elem_of_nil. tauto.
Qed.

(** C9. The number of documents stored: [document_count] is the size of
    the doc_id -> DocumentEntry map, it is the number the [health] report
    gives as ["docs"] ([len(INDEX.docs)]), and after any sequence of
    [index_document] calls it is the number of distinct [doc_id]s indexed. *)
Theorem document_count_is_docs_size (m_bits : positive) (k_lex k_sem : Z)
    (calls : list (string * string * option (gmap string Any))) :
  let INDEX := build m_bits k_lex k_sem calls in
  FSBIIndex.document_count INDEX = Z.of_nat (length (FSBIIndex.docs INDEX))
  ∧ snd (health INDEX) = FSBIIndex.document_count INDEX
  ∧ FSBIIndex.document_count INDEX
    = Z.of_nat (size (list_to_set (map (fun c => fst (fst c)) calls) : gset string))
  ∧ (∀ doc_id, is_Some (FSBIIndex.get_doc INDEX doc_id)
               ↔ doc_id ∈ map (fun c => fst (fst c)) calls).
Proof.
  intros INDEX.
  assert (FSBIIndex.document_count INDEX = Z.of_nat (length (FSBIIndex.docs INDEX)))
    as Hlen.
  { unfold FSBIIndex.document_count, Py.keys. by rewrite length_map. }
  split_and!; [done|by rewrite Hlen| |].
  - unfold FSBIIndex.document_count. f_equal.
    destruct (build_wf m_bits k_lex k_sem calls) as (_ & Hnd & Hkeys).
    fold INDEX in Hnd, Hkeys. rewrite <- Hkeys in Hnd.
    rewrite <- (size_list_to_set (C := gset string)) by done. f_equal.
    apply set_eq. intros k. rewrite !elem_of_list_to_set. apply build_keys.
  - intros doc_id. unfold FSBIIndex.get_doc.
    rewrite <- build_keys. fold INDEX.
    destruct (Py.get doc_id (FSBIIndex.docs INDEX)) as [e|] eqn:Hg.
    + split; [intros _|by eexists].
      apply get_Some_elem in Hg. unfold Py.keys.
      by apply (list_elem_of_fmap_2 fst) in Hg.
    + split; [by intros [? ?]|]. intros Hin.
      by apply get_None_keys in Hg.
Qed.

End IndexingClaims.

(** ** Rational arithmetic of the scores *)

Lemma Qltb_true a b : Qltb a b = true ↔ (a < b)%Q.
Proof.
  unfold Qltb. rewrite negb_true_iff. split.
  - intros Hle. apply Qnot_le_lt. intros Hba%Qle_bool_iff. congruence.
  - intros Hlt. destruct (Qle_bool b a) eqn:Hle; [|done].
    apply Qle_bool_iff in Hle. by apply Qlt_not_le in Hlt.
Qed.

Lemma Qltb_false a b : Qltb a b = false ↔ (b <= a)%Q.
Proof.
  unfold Qltb. rewrite negb_false_iff. apply Qle_bool_iff.
Qed.

Lemma truediv_Some a b : ¬ (b == 0)%Q → truediv a b = Some (a / b)%Q.
Proof.
  intros Hb. unfold truediv. destruct (Qeq_bool b 0) eqn:Heq; [|done].
  by apply Qeq_bool_iff in Heq.
Qed.

Lemma inject_Z_pos z : 0 < z → (0 < inject_Z z)%Q.
Proof. intros Hz. change 0%Q with (inject_Z 0). by rewrite <- Zlt_Qlt. Qed.

Lemma Qdiv_unit_interval a b :
  (0 <= a)%Q → (a <= b)%Q → (0 < b)%Q → (0 <= a / b ∧ a / b <= 1)%Q.
Proof.
  intros Ha Hab Hb. split.
  - apply Qle_shift_div_l; [done|]. lra.
  - apply Qle_shift_div_r; [done|]. lra.
Qed.


Lemma match_score_value node idxs :
  BloomNode.match_score node idxs = Some (match_value node idxs).
Proof.
  unfold BloomNode.match_score, match_value.
  destruct (Z.ltb_spec 0 (Z.of_nat (length idxs))) as [Hpos|Hzero].
  - rewrite (proj2 (Z.eqb_neq _ 0)) by lia. apply truediv_Some.
    intros Heq. apply inject_Z_pos in Hpos. lra.
  - by rewrite (proj2 (Z.eqb_eq _ 0)) by lia.
Qed.


Lemma weight_pos lvl : 0 ≤ lvl → (0 < weight lvl)%Q.
Proof.
  intros Hl. unfold weight. apply Qlt_shift_div_l; [apply inject_Z_pos; lia|]. lra.
Qed.

Lemma weight_truediv lvl : 0 ≤ lvl → truediv 1 (inject_Z (1 + lvl)) = Some (weight lvl).
Proof.
  intros Hl. apply truediv_Some. intros Heq.
  assert (0 < inject_Z (1 + lvl))%Q by (apply inject_Z_pos; lia). lra.
Qed.

Lemma Qsum_nonneg (l : list Q) : Forall (fun q => 0 <= q)%Q l → (0 <= Qsum l)%Q.
Proof.
  induction 1 as [|q l Hq Hl IH]; simpl; [apply Qle_refl|]. lra.
Qed.


(** ** Scoring one document *)

Section Scoring.
Context `{Externals}.
Implicit Types (self : FSBIIndex.t) (root : BloomNode.t) (d : levels_t).

Lemma pairs_nonneg d : levels_nonneg d → Forall (fun p => 0 ≤ fst p) (pairs d).
Proof.
  intros Hd. apply Forall_forall. intros [lvl s] (subseqs & Hin & _)%elem_of_pairs.
  unfold levels_nonneg in Hd. rewrite Forall_forall in Hd. apply (Hd _ Hin).
Qed.

Lemma decompose_nonneg text : levels_nonneg (fractal_decompose text 3).
Proof.
  rewrite fractal_decompose_levels. unfold levels_nonneg.
  do 3 (apply Forall_cons; split; [simpl; lia|]).
  apply Forall_forall. intros kv Hkv. apply list_elem_of_fmap in Hkv as (L & -> & HL).
  apply elem_of_range in HL. simpl. lia.
Qed.

Lemma root_match_pooled self root d :
  FSBIIndex.root_match self root d
  = (set_count self (BloomNode.bits root) (pooled self d),
     Z.of_nat (length (pooled self d))).
Proof.
  unfold FSBIIndex.root_match.
  rewrite (foldl_pairs (fun lvl '(root_hits, root_total) s =>
    (root_hits + set_count self (BloomNode.bits root) (FSBIIndex.ids self s),
     root_total + Z.of_nat (length (FSBIIndex.ids self s))))).
  unfold pooled.
  assert (∀ (ps : list (Z * string)) h t,
    foldl (fun acc p =>
             let '(root_hits, root_total) := acc in
             (root_hits + set_count self (BloomNode.bits root) (FSBIIndex.ids self (snd p)),
              root_total + Z.of_nat (length (FSBIIndex.ids self (snd p)))))
          (h, t) ps
    = (h + set_count self (BloomNode.bits root) (p ← ps; FSBIIndex.ids self (snd p)),
       t + Z.of_nat (length (p ← ps; FSBIIndex.ids self (snd p))))) as Hgen.
  { induction ps as [|p ps IH]; intros h t.
    - unfold set_count. simpl. f_equal; lia.
    - rewrite bind_cons. cbn [foldl]. rewrite IH. unfold set_count.
      rewrite filter_app, !length_app. f_equal; lia. }
  erewrite foldl_pointwise; [rewrite Hgen; f_equal; lia|].
  by intros [h t] p.
Qed.

Lemma root_score_truediv self root d :
  (let '(root_hits, root_total) := FSBIIndex.root_match self root d in
   if 0 <? root_total then truediv (inject_Z root_hits) (inject_Z root_total)
   else Some 0%Q)
  = Some (root_score self root d).
Proof.
  rewrite root_match_pooled. unfold root_score.
  destruct (Z.ltb_spec 0 (Z.of_nat (length (pooled self d)))) as [Hpos|Hzero].
  - rewrite (proj2 (Z.eqb_neq _ 0)) by lia. apply truediv_Some.
    intros Heq. apply inject_Z_pos in Hpos. lra.
  - by rewrite (proj2 (Z.eqb_eq _ 0)) by lia.
Qed.

Lemma root_score_bounds self root d :
  (0 <= root_score self root d ∧ root_score self root d <= 1)%Q.
Proof.
  unfold root_score.
  destruct (Z.eqb_spec (Z.of_nat (length (pooled self d))) 0) as [|Hne].
  - split; [apply Qle_refl|done].
  - apply Qdiv_unit_interval.
    + change 0%Q with (inject_Z 0). rewrite <- Zle_Qle. unfold set_count. lia.
    + rewrite <- Zle_Qle. unfold set_count. apply inj_le, length_filter.
    + apply inject_Z_pos. lia.
Qed.

(** The descent returns the two sums. *)
Lemma descend_sums self root d :
  levels_nonneg d →
  ∃ score total_w,
    FSBIIndex.descend self root d = Some (score, total_w)
    ∧ (score == weighted_match_sum self root d)%Q
    ∧ (total_w == weight_sum d)%Q.
Proof.
  intros Hd%pairs_nonneg. unfold FSBIIndex.descend.
  rewrite (foldlM_pairs (fun lvl '(score, total_w) s =>
    m ← match BloomNode.children root !! FSBIIndex.child_name lvl s with
        | Some c => BloomNode.match_score c (FSBIIndex.ids self s)
        | None => BloomNode.match_score root (FSBIIndex.ids self s)
        end;
    w ← truediv 1 (inject_Z (1 + lvl));
    Some (score + w * m, total_w + w)%Q)).
  unfold weighted_match_sum, weight_sum.
  revert Hd. generalize (pairs d) as ps. intros ps Hps.
  assert (∀ s0 t0, ∃ score total_w,
    foldlM (fun acc p =>
              let '(score, total_w) := acc in
              m ← match BloomNode.children root !! FSBIIndex.child_name (fst p) (snd p) with
                  | Some c => BloomNode.match_score c (FSBIIndex.ids self (snd p))
                  | None => BloomNode.match_score root (FSBIIndex.ids self (snd p))
                  end;
              w ← truediv 1 (inject_Z (1 + fst p));
              Some (score + w * m, total_w + w)%Q)
           (s0, t0) ps = Some (score, total_w)
    ∧ (score == s0 + Qsum (map (fun p => weight (fst p) * pair_match self root p) ps))%Q
    ∧ (total_w == t0 + Qsum (map (fun p => weight (fst p)) ps))%Q) as Hgen.
  { induction Hps as [|p ps Hp Hps IH]; intros s0 t0.
    - exists s0, t0. simpl. split_and!; [done|lra|lra].
    - simpl.
      assert (match BloomNode.children root !! FSBIIndex.child_name (fst p) (snd p) with
              | Some c => BloomNode.match_score c (FSBIIndex.ids self (snd p))
              | None => BloomNode.match_score root (FSBIIndex.ids self (snd p))
              end = Some (pair_match self root p)) as ->.
      { unfold pair_match. destruct (BloomNode.children root !! _);
          apply match_score_value. }
      simpl. rewrite weight_truediv by done. simpl.
      destruct (IH (s0 + weight (fst p) * pair_match self root p)%Q
                   (t0 + weight (fst p))%Q) as (score & total_w & -> & Hs & Ht).
      exists score, total_w. split_and!; [done|lra|lra]. }
  destruct (Hgen 0%Q 0%Q) as (score & total_w & Heq & Hs & Ht).
  exists score, total_w. split_and!; [|lra|lra].
  erewrite foldlM_pointwise; [exact Heq|]. by intros [s t] p.
Qed.

Lemma weight_sum_nonneg d : levels_nonneg d → (0 <= weight_sum d)%Q.
Proof.
  intros Hd%pairs_nonneg. unfold weight_sum. apply Qsum_nonneg.
  apply Forall_fmap. eapply Forall_impl; [exact Hd|].
  intros p Hp. simpl. apply Qlt_le_weak. by apply weight_pos.
Qed.




(** The final score of a candidate that is not pruned. *)
Lemma final_score_value self root d score total_w :
  levels_nonneg d →
  (score == weighted_match_sum self root d)%Q →
  (total_w == weight_sum d)%Q →
  ∃ final_score,
    (if Qltb 0 total_w then truediv score total_w else Some 0%Q) = Some final_score
    ∧ (final_score == refinement_score self root d)%Q.
Proof.
  intros Hd Hs Ht. pose proof (weight_sum_nonneg d Hd) as Hnn.
  unfold refinement_score.
  destruct (Qeq_bool (weight_sum d) 0) eqn:Hz.
  - apply Qeq_bool_iff in Hz.
    rewrite (proj2 (Qltb_false 0 total_w)) by lra. by exists 0%Q.
  - apply Qeq_bool_neq in Hz.
    rewrite (proj2 (Qltb_true 0 total_w)) by lra.
    rewrite truediv_Some by lra. eexists. split; [done|]. by rewrite Hs, Ht.
Qed.

(** One turn of the loop of [query]: the candidate is dropped when its
    root score is below the threshold, and otherwise appended with its
    refinement score. *)
Lemma query_doc_value self thresholds d candidates doc_id root :
  levels_nonneg d →
  ∃ final_score,
    (final_score == refinement_score self root d)%Q
    ∧ FSBIIndex.query_doc self (default ∅ thresholds) d candidates (doc_id, root)
      = Some (if pruned self thresholds root d then candidates
              else candidates ++ [(doc_id, final_score)]).
Proof.
  intros Hd. unfold FSBIIndex.query_doc, pruned.
  pose proof (root_score_truediv self root d) as Hroot.
  destruct (FSBIIndex.root_match self root d) as [root_hits root_total].
  rewrite Hroot. simpl.
  destruct (Qltb (root_score self root d) _).
  - exists (refinement_score self root d). split; [done|done].
  - destruct (descend_sums self root d Hd) as (score & total_w & -> & Hs & Ht).
    simpl.
    destruct (final_score_value self root d score total_w Hd Hs Ht)
      as (final_score & -> & Hf).
    exists final_score. by split.
Qed.

(** The loop of [query] over the trees returns the survivors. *)
Lemma query_candidates_survivors self query_text thresholds :
  ∃ candidates,
    FSBIIndex.query_candidates self query_text thresholds = Some candidates
    ∧ Forall2 same_result candidates
        (survivors self thresholds (fractal_decompose query_text 3)).
Proof.
  unfold FSBIIndex.query_candidates, survivors.
  pose proof (decompose_nonneg query_text) as Hd.
  revert Hd. generalize (fractal_decompose query_text 3) as d. intros d Hd.
  assert (∀ trees acc, ∃ rest,
    foldlM (FSBIIndex.query_doc self (default ∅ thresholds) d) acc trees
    = Some (acc ++ rest)
    ∧ Forall2 same_result rest
        (omap (fun kv => if pruned self thresholds (snd kv) d then None
                         else Some (fst kv, refinement_score self (snd kv) d)) trees))
    as Hgen.
  { induction trees as [|[doc_id root] trees IH]; intros acc.
    - exists []. simpl. rewrite app_nil_r. split; [done|constructor].
    - change (foldlM ?f acc ((doc_id, root) :: trees))
        with (b' ← f acc (doc_id, root); foldlM f b' trees).
      destruct (query_doc_value self thresholds d acc doc_id root Hd)
        as (final_score & Hf & ->).
      change (omap ?f ((doc_id, root) :: trees))
        with (match f (doc_id, root) with
              | Some y => y :: omap f trees | None => omap f trees end).
      cbn [mbind option_bind fst snd]. destruct (pruned self thresholds root d).
      + apply IH.
      + destruct (IH (acc ++ [(doc_id, final_score)])) as (rest & -> & Hrest).
        exists ((doc_id, final_score) :: rest). rewrite <- app_assoc.
        split; [done|]. constructor; [by split|done]. }
  destruct (Hgen (FSBIIndex.trees self) []) as (rest & Heq & Hrest).
  exists rest. by split.
Qed.

End Scoring.

(** ** The stable sort by decreasing score *)

Section Sorting.
Implicit Types (x a b : string * Q) (l : list (string * Q)).

Lemma sort_insert_perm x l : FSBIIndex.sort_insert x l ≡ₚ x :: l.
Proof.
  induction l as [|y l IH]; simpl; [done|].
  destruct (Qltb (snd x) (snd y)); [|done].
  rewrite IH. apply Permutation_swap.
Qed.

Lemma sort_desc_perm l : FSBIIndex.sort_desc l ≡ₚ l.
Proof.
  induction l as [|x l IH]; simpl; [done|].
  rewrite sort_insert_perm. by rewrite IH.
Qed.







Lemma slice_to_sublist {A} (l : list A) (k : Z) : Py.slice_to l k `sublist_of` l.
Proof. unfold Py.slice_to. destruct (0 <=? k); apply sublist_take. Qed.


Lemma slice_to_all {A} (l : list A) (k : Z) :
  Z.of_nat (length l) ≤ k → Py.slice_to l k = l.
Proof.
  intros Hk. unfold Py.slice_to. rewrite (proj2 (Z.leb_le 0 k)) by lia.
  apply take_ge. lia.
Qed.

End Sorting.


(** ** The query *)

Lemma filter_none {A} (P : A → Prop) `{∀ x, Decision (P x)} (l : list A) :
  (∀ x, ¬ P x) → filter P l = [].
Proof.
  intros HP. induction l as [|x l IH]; [done|].
  by rewrite filter_cons_False.
Qed.

Section Query.
Context `{Externals}.
Implicit Types (self : FSBIIndex.t) (root : BloomNode.t) (d : levels_t).

Lemma survivors_elem self thresholds d doc_id s :
  (doc_id, s) ∈ survivors self thresholds d ↔
  ∃ root, (doc_id, root) ∈ FSBIIndex.trees self
          ∧ pruned self thresholds root d = false
          ∧ s = refinement_score self root d.
Proof.
  unfold survivors. rewrite list_elem_of_omap. split.
  - intros ([doc_id' root] & Hin & Hf). simpl in Hf.
    destruct (pruned self thresholds root d) eqn:Hp; [done|].
    injection Hf as -> <-. by exists root.
  - intros (root & Hin & Hp & ->). exists (doc_id, root). split; [done|].
    simpl. by rewrite Hp.
Qed.

Lemma survivors_keys self thresholds d :
  map fst (survivors self thresholds d) `sublist_of` Py.keys (FSBIIndex.trees self).
Proof.
  unfold survivors, Py.keys.
  induction (FSBIIndex.trees self) as [|[doc_id root] trees IH]; [done|].
  change (omap ?f ((doc_id, root) :: trees))
    with (match f (doc_id, root) with
          | Some y => y :: omap f trees | None => omap f trees end).
  cbn [fst snd]. destruct (pruned self thresholds root d); simpl.
  - by apply sublist_cons.
  - by apply sublist_skip.
Qed.

Lemma same_result_keys (candidates expected : list (string * Q)) :
  Forall2 same_result candidates expected → map fst candidates = map fst expected.
Proof.
  induction 1 as [|c e cs es [Hc _] _ IH]; simpl; [done|]. by rewrite Hc, IH.
Qed.

Lemma same_result_elem_l (candidates expected : list (string * Q)) doc_id s :
  Forall2 same_result candidates expected → (doc_id, s) ∈ candidates →
  ∃ s', (doc_id, s') ∈ expected ∧ (s == s')%Q.
Proof.
  intros Hall Hin. apply list_elem_of_lookup in Hin as [i Hi].
  destruct (Forall2_lookup_l _ _ _ _ _ Hall Hi) as ([doc_id' s'] & Hi' & Hd & Hs).
  simpl in Hd, Hs. subst doc_id'. exists s'. split; [|done].
  apply list_elem_of_lookup. by exists i.
Qed.

Lemma same_result_elem_r (candidates expected : list (string * Q)) doc_id s' :
  Forall2 same_result candidates expected → (doc_id, s') ∈ expected →
  ∃ s, (doc_id, s) ∈ candidates ∧ (s == s')%Q.
Proof.
  intros Hall Hin. apply list_elem_of_lookup in Hin as [i Hi].
  destruct (Forall2_lookup_r _ _ _ _ _ Hall Hi) as ([doc_id' s] & Hi' & Hd & Hs).
  simpl in Hd, Hs. subst doc_id'. exists s. split; [|done].
  apply list_elem_of_lookup. by exists i.
Qed.

(** [query] returns: the candidates sorted and cut. *)
Lemma query_results self query_text top_k thresholds :
  ∃ candidates,
    FSBIIndex.query_candidates self query_text thresholds = Some candidates
    ∧ Forall2 same_result candidates
        (survivors self thresholds (fractal_decompose query_text 3))
    ∧ FSBIIndex.query self query_text top_k thresholds
      = Some (Py.slice_to (FSBIIndex.sort_desc candidates) top_k).
Proof.
  destruct (query_candidates_survivors self query_text thresholds)
    as (candidates & Hc & Hall).
  exists candidates. split_and!; [done..|].
  unfold FSBIIndex.query. by rewrite Hc.
Qed.

Lemma result_is_candidate (candidates : list (string * Q)) top_k r :
  r ∈ Py.slice_to (FSBIIndex.sort_desc candidates) top_k → r ∈ candidates.
Proof.
  intros Hr. rewrite <- (sort_desc_perm candidates).
  eapply elem_of_sublist; [exact Hr|apply slice_to_sublist].
Qed.

Lemma pruned_false self thresholds root d :
  pruned self thresholds root d = false ↔
  ¬ (root_score self root d < FSBIIndex.threshold0 (default ∅ thresholds))%Q.
Proof.
  unfold pruned. rewrite Qltb_false. split.
  - intros Hle Hlt. by apply Qlt_not_le in Hlt.
  - apply Qnot_lt_le.
Qed.

(** A tree without a set bit and without children scores 0. *)
Lemma empty_tree_scores self root d :
  levels_nonneg d →
  (∀ k, BloomNode.bits root !! k ≠ Some true) →
  BloomNode.children root = ∅ →
  (root_score self root d == 0)%Q ∧ (refinement_score self root d == 0)%Q.
Proof.
  intros Hd Hbits Hch.
  assert (∀ i : Z, BloomNode.getitem (BloomNode.bits root) i = false) as Hget.
  { intros i. unfold BloomNode.getitem.
    destruct (BloomNode.bits root !! Z.to_nat i) as [[]|] eqn:Hi; [|done..].
    by apply Hbits in Hi. }
  split.
  - unfold root_score. destruct (_ =? 0); [done|].
    unfold set_count. rewrite filter_none.
    + simpl. unfold Qdiv. apply Qmult_0_l.
    + intros i. by rewrite Hget.
  - unfold refinement_score. destruct (Qeq_bool (weight_sum d) 0); [done|].
    assert (weighted_match_sum self root d == 0)%Q as ->.
    { unfold weighted_match_sum. induction (pairs d) as [|p ps IH]; [done|].
      simpl. rewrite IH. unfold pair_match. rewrite Hch, lookup_empty.
      unfold match_value. destruct (_ =? 0); [lra|].
      unfold BloomNode.hits. rewrite filter_none.
      - simpl. unfold Qdiv. change (inject_Z (Z.of_nat 0)) with 0%Q. ring.
      - intros i. by rewrite Hget. }
    unfold Qdiv. apply Qmult_0_l.
Qed.

End Query.

(** ** Child keys *)






(** ** Blank texts *)

Lemma lstrip_blank l : Forall (fun c => PyStr.isspace c = true) l → PyStr.lstrip_chars l = [].
Proof. induction 1 as [|c l Hc Hl IH]; simpl; [done|]. by rewrite Hc. Qed.

Lemma normalize_blank text : blank text → normalize text = "".
Proof.
  intros Hb. unfold normalize, PyStr.strip. by rewrite lstrip_blank.
Qed.

Lemma range_empty a b : b ≤ a → Py.range a b = [].
Proof. intros Hab. unfold Py.range. by replace (Z.to_nat (b - a)) with 0%nat by lia. Qed.

Lemma decompose_blank text max_phrase_len :
  blank text →
  fractal_decompose text max_phrase_len
  = (1, []) :: (2, []) :: (3, [])
    :: map (fun L => (3 + L - 1, [])) (Py.range 2 (max_phrase_len + 1)).
Proof.
  intros Hb. rewrite fractal_decompose_levels.
  unfold level_chars, tokens_of. rewrite (normalize_blank text Hb).
  do 3 f_equal. apply map_ext_in. intros L HL. f_equal.
  apply list_elem_of_In, elem_of_range in HL.
  unfold windows. rewrite range_empty; [done|]. simpl. lia.
Qed.

Lemma decompose_blank_empty text max_phrase_len :
  blank text → Forall (fun kv => snd kv = []) (fractal_decompose text max_phrase_len).
Proof.
  intros Hb. rewrite decompose_blank by done.
  do 3 (apply Forall_cons; split; [done|]).
  apply Forall_fmap, Forall_forall. done.
Qed.

Lemma build_root_blank `{Externals} self doc_id text :
  blank text →
  FSBIIndex.build_root self doc_id text
  = BloomNode.init (FSBIIndex.m self) 0 (doc_id +:+ "_root").
Proof.
  intros Hb. rewrite build_root_pairs.
  by rewrite (proj2 (pairs_nil_iff _) (decompose_blank_empty text 3 Hb)).
Qed.

(** ** Insertion and the noisy copy *)

Section NoisyCopy.
Context `{Externals}.

Lemma flip_other b i st a :
  a ≠ b → BloomNode.store (BloomNode.flip b i st) !! a = BloomNode.store st !! a.
Proof. intros Hne. simpl. by apply list_lookup_alter_ne. Qed.

Lemma flip_length b i st :
  length (BloomNode.store (BloomNode.flip b i st)) = length (BloomNode.store st).
Proof. simpl. apply length_alter. Qed.

(** The loop of [noisy_bits] writes the object [noisy] only. *)
Lemma noisy_loop_frame noisy flip_prob (positions : list nat) st a :
  a ≠ noisy →
  BloomNode.store
    (foldl (fun st i =>
              let '(r, st) := BloomNode.random_random st in
              if Qltb r flip_prob then BloomNode.flip noisy i st else st)
           st positions) !! a
  = BloomNode.store st !! a.
Proof.
  intros Hne. revert st. induction positions as [|i positions IH]; intros st; [done|].
  cbn [foldl]. rewrite IH. unfold BloomNode.random_random.
  destruct (Qltb _ flip_prob); [by rewrite flip_other|done].
Qed.

Lemma noisy_bits_frame self_bits self_m flip_prob st content :
  BloomNode.store st !! self_bits = Some content →
  ∃ st',
    BloomNode.noisy_bits self_bits self_m flip_prob st
    = Some (length (BloomNode.store st), st')
    ∧ (∀ a, (a < length (BloomNode.store st))%nat →
            BloomNode.store st' !! a = BloomNode.store st !! a)
    ∧ ((flip_prob <= 0)%Q →
       BloomNode.store st' !! length (BloomNode.store st) = Some content
       ∧ BloomNode.drawn st' = BloomNode.drawn st).
Proof.
  intros Hself. unfold BloomNode.noisy_bits, BloomNode.copy. rewrite Hself.
  cbn [mbind option_bind].
  destruct (Qle_bool flip_prob 0) eqn:Hp.
  - eexists. split_and!; [done| |].
    + intros a Ha. cbn [BloomNode.store]. by apply lookup_app_l.
    + intros _. cbn [BloomNode.store BloomNode.drawn]. split; [|done].
      by apply list_lookup_middle.
  - eexists. split_and!; [done| |].
    + intros a Ha. rewrite noisy_loop_frame by lia.
      cbn [BloomNode.store]. by apply lookup_app_l.
    + intros Hle%Qle_bool_iff. congruence.
Qed.

End NoisyCopy.

(** C7. Bit-set growth is monotone and the noisy copy is a copy. After
    [insert_indexes], every bit that was set is still set, the population
    count has not decreased and the length is unchanged. [noisy_bits]
    returns a new object: no object of the store that existed before the
    call is written, the [bits] object of the node among them; and with a
    flip probability [p <= 0] (so with [p = 0]) the new object holds
    exactly the bits of the original and no random value is drawn. *)
Theorem bitset_growth_and_noisy_copy `{Externals} :
  (∀ (node : BloomNode.t) (idxs : list Z),
     let after := BloomNode.insert_indexes node idxs in
     (∀ k, BloomNode.bits node !! k = Some true →
           BloomNode.bits after !! k = Some true)
     ∧ (popcount (BloomNode.bits node) ≤ popcount (BloomNode.bits after))%nat
     ∧ length (BloomNode.bits after) = length (BloomNode.bits node))
  ∧ (∀ (self_bits : nat) (self_m : positive) (flip_prob : Q)
       (st : BloomNode.state) (content : list bool),
       BloomNode.store st !! self_bits = Some content →
       ∃ noisy st',
         BloomNode.noisy_bits self_bits self_m flip_prob st = Some (noisy, st')
         ∧ noisy = length (BloomNode.store st)
         ∧ BloomNode.store st !! noisy = None
         ∧ BloomNode.store st' !! self_bits = Some content
         ∧ (∀ a, (a < length (BloomNode.store st))%nat →
                 BloomNode.store st' !! a = BloomNode.store st !! a)
         ∧ ((flip_prob <= 0)%Q →
            BloomNode.store st' !! noisy = Some content
            ∧ BloomNode.drawn st' = BloomNode.drawn st)).
Proof.
  split.
  - intros node idxs after. unfold after. rewrite insert_indexes_bits.
    split_and!.
    + intros k. apply insert_bits_mono.
    + apply insert_bits_popcount.
    + apply insert_bits_length.
  - intros self_bits self_m flip_prob st content Hself.
    destruct (noisy_bits_frame self_bits self_m flip_prob st content Hself)
      as (st' & Heq & Hframe & Hzero).
    exists (length (BloomNode.store st)), st'.
    split_and!; [done|done| | |done|done].
    + by apply lookup_ge_None.
    + rewrite Hframe; [done|]. by eapply lookup_lt_Some.
Qed.

Section QueryClaims.
Context `{Externals}.


(** C2. The pruning stage. The loops of the root match pool the indices of
    every subsequence of every level of the query (an index produced
    several times counts that many times), [root_hits] is the number of
    pooled indices whose bit is set in the root and [root_total] the number
    pooled; [root_score] is their quotient, and 0 when nothing is pooled.
    The candidate is kept by the loop exactly when [root_score] is not
    below [thresholds[0]], which is 0.01 when [thresholds] is absent or
    has no key 0; a pruned candidate is in no result, and a kept one is in
    the result when [top_k] is at least the number of documents. *)
Theorem pruning_by_root_score (m_bits : positive) (k_lex k_sem : Z)
    (calls : list (string * string * option (gmap string Any)))
    (query_text : string) (thresholds : option (gmap Z Q))
    (doc_id : string) (root : BloomNode.t) :
  let self := build m_bits k_lex k_sem calls in
  let d := fractal_decompose query_text 3 in
  let threshold := FSBIIndex.threshold0 (default ∅ thresholds) in
  Py.get doc_id (FSBIIndex.trees self) = Some root →
  FSBIIndex.root_match self root d
  = (set_count self (BloomNode.bits root) (pooled self d),
     Z.of_nat (length (pooled self d)))
  ∧ (root_score self root d ==
     if Z.of_nat (length (pooled self d)) =? 0 then 0
     else inject_Z (set_count self (BloomNode.bits root) (pooled self d))
          / inject_Z (Z.of_nat (length (pooled self d))))%Q
  ∧ (match thresholds with
     | None => threshold = (1 # 100)%Q
     | Some t => threshold = match t !! 0 with Some x => x | None => (1 # 100)%Q end
     end)
  ∧ ∃ candidates,
      FSBIIndex.query_candidates self query_text thresholds = Some candidates
      ∧ (doc_id ∈ map fst candidates ↔ ¬ (root_score self root d < threshold)%Q)
      ∧ (∀ top_k, ∃ results,
           FSBIIndex.query self query_text top_k thresholds = Some results
           ∧ (doc_id ∈ map fst results → ¬ (root_score self root d < threshold)%Q)
           ∧ (Z.of_nat (length (FSBIIndex.trees self)) ≤ top_k →
              ¬ (root_score self root d < threshold)%Q →
              doc_id ∈ map fst results)).
Proof.
  intros self d threshold Hroot.
  split_and!; [apply root_match_pooled|done|by destruct thresholds|].
  destruct (build_wf m_bits k_lex k_sem calls) as (_ & Hnd & _). fold self in Hnd.
  destruct (query_results self query_text 0 thresholds)
    as (candidates & Hc & Hall & _).
  fold d in Hall. exists candidates.
  assert (doc_id ∈ map fst candidates
          ↔ ¬ (root_score self root d < threshold)%Q) as Hiff.
  { unfold threshold. rewrite <- pruned_false, (same_result_keys _ _ Hall). split.
    - intros ([doc_id' s] & -> & Hin)%list_elem_of_fmap. simpl in *.
      apply survivors_elem in Hin as (root' & Hin & Hp & _).
      apply elem_get_NoDup in Hin; [|done]. congruence.
    - intros Hp. apply list_elem_of_fmap.
      exists (doc_id, refinement_score self root d). split; [done|].
      apply survivors_elem. exists root. split_and!; [|done..].
      by apply get_Some_elem. }
  split_and!; [done..|].
  intros top_k. eexists. split_and!.
  - unfold FSBIIndex.query. by rewrite Hc.
  - intros ([doc_id' s] & -> & Hin)%list_elem_of_fmap. simpl.
    apply result_is_candidate in Hin. apply Hiff.
    apply list_elem_of_fmap. by exists (doc_id', s).
  - intros Hk Hp. rewrite slice_to_all.
    + rewrite sort_desc_perm. by apply Hiff.
    + rewrite sort_desc_perm.
      assert (length candidates ≤ length (FSBIIndex.trees self))%nat; [|lia].
      rewrite <- (length_map fst candidates), (same_result_keys _ _ Hall).
      rewrite <- (length_map fst (FSBIIndex.trees self)).
      apply sublist_length, survivors_keys.
Qed.


(** C8. Numeric edge cases. A text that is empty or all whitespace
    decomposes into empty levels only; its tree has an all-zero root and no
    child; against any query its [root_score] and its refinement score are
    0, so under the default threshold it is pruned, and whenever a result
    of [query] names the document its score is 0. No division fails:
    [match_score] returns for every node and index list (0 for no index),
    and [query] returns for every index, query, [top_k] and thresholds. *)
Theorem blank_text_scores_zero (text : string) :
  blank text →
  (∀ max_phrase_len,
     Forall (fun kv => snd kv = []) (fractal_decompose text max_phrase_len))
  ∧ (∀ (self : FSBIIndex.t) (doc_id query_text : string),
       let root := FSBIIndex.build_root self doc_id text in
       let d := fractal_decompose query_text 3 in
       BloomNode.bits root = replicate (Pos.to_nat (FSBIIndex.m self)) false
       ∧ BloomNode.children root = ∅
       ∧ (root_score self root d == 0)%Q
       ∧ (refinement_score self root d == 0)%Q
       ∧ pruned self None root d = true)
  ∧ (∀ m_bits k_lex k_sem calls doc_id metadata query_text top_k thresholds,
       let self :=
         FSBIIndex.index_document (build m_bits k_lex k_sem calls)
                                  doc_id text metadata in
       ∃ candidates results,
         FSBIIndex.query_candidates self query_text thresholds = Some candidates
         ∧ FSBIIndex.query self query_text top_k thresholds = Some results
         ∧ (∀ s, (doc_id, s) ∈ results → (s == 0)%Q)
         ∧ (∀ s, (doc_id, s) ∈ candidates → (s == 0)%Q)
         ∧ ((FSBIIndex.threshold0 (default ∅ thresholds) <= 0)%Q →
            ∃ s, (doc_id, s) ∈ candidates))
  ∧ (∀ (self : FSBIIndex.t) query_text top_k thresholds,
       is_Some (FSBIIndex.query self query_text top_k thresholds))
  ∧ (∀ (node : BloomNode.t) (idxs : list Z),
       is_Some (BloomNode.match_score node idxs))
  ∧ (∀ node : BloomNode.t, BloomNode.match_score node [] = Some 0%Q).
Proof.
  intros Hb.
  assert (∀ (self : FSBIIndex.t) (doc_id query_text : string),
    (root_score self (FSBIIndex.build_root self doc_id text)
       (fractal_decompose query_text 3) == 0)%Q
    ∧ (refinement_score self (FSBIIndex.build_root self doc_id text)
         (fractal_decompose query_text 3) == 0)%Q) as Hzero.
  { intros self doc_id query_text. rewrite build_root_blank by done.
    apply empty_tree_scores; [apply decompose_nonneg| |done].
    intros k. apply init_bits_false. }
  split_and!.
  - intros mpl. by apply decompose_blank_empty.
  - intros self doc_id query_text root d.
    destruct (Hzero self doc_id query_text) as [Hr Hf].
    unfold root. split_and!; [by rewrite build_root_blank..|done|done|].
    unfold pruned. apply Qltb_true. unfold FSBIIndex.threshold0.
    cbn [default]. rewrite lookup_empty. cbn [default]. unfold d. lra.
  - intros m_bits k_lex k_sem calls doc_id metadata query_text top_k thresholds self.
    destruct (query_results self query_text top_k thresholds)
      as (candidates & Hc & Hall & Hq).
    exists candidates, (Py.slice_to (FSBIIndex.sort_desc candidates) top_k).
    assert (index_wf self) as (_ & Hnd & _).
    { apply index_document_wf, build_wf. }
    assert (Py.get doc_id (FSBIIndex.trees self)
            = Some (FSBIIndex.build_root self doc_id text)) as Hget.
    { unfold self. cbn [FSBIIndex.index_document FSBIIndex.trees].
      apply get_set_eq. }
    assert (∀ s, (doc_id, s) ∈ candidates → (s == 0)%Q) as Hcand.
    { intros s Hin.
      destruct (same_result_elem_l candidates _ doc_id s Hall Hin) as (s' & Hs' & Heq).
      apply survivors_elem in Hs' as (root & Hroot & _ & ->).
      apply elem_get_NoDup in Hroot; [|done].
      rewrite Hget in Hroot. injection Hroot as <-.
      rewrite Heq. apply Hzero. }
    split_and!; [done|done| |done|].
    + intros s Hin. apply result_is_candidate in Hin. by apply Hcand.
    + intros Hthr.
      destruct (same_result_elem_r candidates _ doc_id
                  (refinement_score self (FSBIIndex.build_root self doc_id text)
                     (fractal_decompose query_text 3)) Hall) as (s & Hs & _).
      { apply survivors_elem. exists (FSBIIndex.build_root self doc_id text).
        split_and!; [by apply get_Some_elem| |done].
        apply pruned_false. destruct (Hzero self doc_id query_text) as [Hr _].
        intros Hlt. lra. }
      by exists s.
  - intros self query_text top_k thresholds.
    destruct (query_results self query_text top_k thresholds)
      as (candidates & _ & _ & ->). by eexists.
  - intros node idxs. rewrite match_score_value. by eexists.
  - intros node. apply match_score_value.
Qed.

End QueryClaims.

(** * The model at work: a small index under the toy hash family *)

Example toy_order : Py.keys (FSBIIndex.trees Toy.index) = ["d1"; "d2"].
Proof. vm_compute. reflexivity. Qed.

Example toy_query_hello :
  Toy.reduced (FSBIIndex.query Toy.index "hello" 5 None)
  = Some [("d1", 1%Q); ("d2", (171 # 196)%Q)].
Proof. vm_compute. reflexivity. Qed.

Example toy_query_top_1 :
  Toy.reduced (FSBIIndex.query Toy.index "hello" 1 None) = Some [("d1", 1%Q)].
Proof. vm_compute. reflexivity. Qed.

Example toy_query_blank :
  FSBIIndex.query Toy.index "  " 5 None = Some []
  ∧ Toy.reduced (FSBIIndex.query Toy.index "  " 5 (Some {[0 := 0%Q]}))
    = Some [("d1", 0%Q); ("d2", 0%Q)].
Proof. split; vm_compute; reflexivity. Qed.

(** The hypotheses of C2 at a document of the toy index. *)
Lemma pruning_by_root_score_witness :
  Py.get "d1" (FSBIIndex.trees Toy.index) = Some Toy.root
  ∧ ∃ candidates,
      FSBIIndex.query_candidates Toy.index "hello" None = Some candidates
      ∧ ("d1" ∈ map fst candidates
         ↔ ¬ (root_score Toy.index Toy.root (fractal_decompose "hello" 3)
              < FSBIIndex.threshold0 (default ∅ None))%Q).
Proof.
  assert (Py.get "d1" (FSBIIndex.trees Toy.index) = Some Toy.root) as Hget.
  { vm_compute. reflexivity. }
  split; [exact Hget|].
  destruct (pruning_by_root_score 64 2 2 Toy.calls "hello" None "d1" Toy.root Hget)
    as (_ & _ & _ & candidates & Hc & Hiff & _).
  exists candidates. split; [exact Hc|exact Hiff].
Defined.


(** The hypothesis of C8 at a text of two spaces and a tab. *)
Lemma blank_text_scores_zero_witness :
  blank (String " " (String " " (String "009" "")))
  ∧ ∀ max_phrase_len,
      Forall (fun kv => snd kv = [])
             (fractal_decompose (String " " (String " " (String "009" "")))
                                max_phrase_len).
Proof.
  assert (blank (String " " (String " " (String "009" "")))) as Hb.
  { repeat constructor. }
  split; [exact Hb|].
  exact (proj1 (blank_text_scores_zero (H := Toy.externals) _ Hb)).
Defined.

(** The hypotheses of C10 at the child of the token ["hello"] and bit 10. *)
Lemma child_bits_in_root_witness :
  ∃ child,
    Py.get "d1" (FSBIIndex.trees Toy.index) = Some Toy.root
    ∧ BloomNode.children Toy.root !! "l3:hello" = Some child
    ∧ BloomNode.bits child !! 10%nat = Some true
    ∧ BloomNode.bits Toy.root !! 10%nat = Some true.
Proof.
  assert (Py.get "d1" (FSBIIndex.trees Toy.index) = Some Toy.root) as Hget.
  { vm_compute. reflexivity. }
  destruct (BloomNode.children Toy.root !! "l3:hello") as [child|] eqn:Hchild;
    [|vm_compute in Hchild; discriminate].
  assert (BloomNode.bits child !! 10%nat = Some true) as Hk.
  { vm_compute in Hchild. injection Hchild as <-. vm_compute. reflexivity. }
  exists child. split_and!; [exact Hget|reflexivity|exact Hk|].
  exact (child_bits_in_root 64 2 2 Toy.calls "d1" Toy.root "l3:hello" child 10
           Hget Hchild Hk).
Defined.


(** * Further properties of the code *)
